(** * pro_users.py: users, salted password digests and the session service

    A shallow embedding of the lecture module [pro_users.py] (classes [User],
    [Customer], [Admin] and [AuthenticationService]) together with the
    properties its specification states about it.

    Layout:
    - [Py]      : the fragment of Python the module relies on (str as a
                  sequence of code points, UTF-8 encoding, exceptions,
                  [str.split], [list.remove], f-string conversion of values);
    - [SHA256]  : [hashlib.sha256(...).hexdigest()];
    - [Users]   : the classes of the module, method by method;
    - [Trace]   : sequences of calls from the start of the process;
    - [Props]   : the vocabulary of the properties;
    - [Demo]    : the script at the end of the module;
    - facts about the fragment, the digests and the methods, and the
      properties of the specification (C1 .. C10). *)

From Stdlib Require Import List NArith ZArith Bool Lia String Ascii DecimalString.
From Stdlib.Strings Require Import Byte.
Import ListNotations.

(* ================================================================== *)
(** ** The Python fragment *)
(* ================================================================== *)

Module Py.
Local Open Scope N_scope.

(** Exceptions the module can meet.  [UnicodeEncodeError] is a subclass of
    [ValueError] in Python; it is kept apart because the only handler of
    the module ([except ValueError] in [check_password]) guards the
    [split] line alone. *)
Inductive exn : Type :=
| ValueError
| TypeError
| UnicodeEncodeError.

Inductive result (A : Type) : Type :=
| Ok (a : A)
| Raise (e : exn).
Arguments Ok {A} a.
Arguments Raise {A} e.

(** A [str] is a sequence of code points [0 .. 0x10FFFF]; a lone surrogate
    ([0xD800 .. 0xDFFF]) is a legal element of a [str]. *)
Definition str : Type := list N.
Definition bytes : Type := list byte.

Fixpoint str_eqb (a b : str) : bool :=
  match a, b with
  | [], [] => true
  | x :: a', y :: b' => (x =? y) && str_eqb a' b'
  | _, _ => false
  end.

Definition is_surrogate (c : N) : bool := (0xD800 <=? c) && (c <=? 0xDFFF).

Definition byte_of_N (n : N) : byte :=
  match Byte.of_N n with Some b => b | None => x00 end.

(** Continuation byte [10xxxxxx] holding bits [6k+5 .. 6k] of [c]. *)
Definition cont (c : N) (k : N) : byte :=
  byte_of_N (N.lor 0x80 (N.land (N.shiftr c (6 * k)) 0x3F)).

(** UTF-8 encoding of one code point, [None] where the strict codec
    refuses it (surrogates; numbers above 0x10FFFF are not code points). *)
Definition encode_cp (c : N) : option bytes :=
  if c <? 0x80 then Some [byte_of_N c]
  else if c <? 0x800 then
    Some [byte_of_N (N.lor 0xC0 (N.shiftr c 6)); cont c 0]
  else if c <? 0x10000 then
    if is_surrogate c then None
    else Some [byte_of_N (N.lor 0xE0 (N.shiftr c 12)); cont c 1; cont c 0]
  else if c <? 0x110000 then
    Some [byte_of_N (N.lor 0xF0 (N.shiftr c 18)); cont c 2; cont c 1; cont c 0]
  else None.

(** [s.encode("utf-8")] *)
Fixpoint encode_utf8 (s : str) : result bytes :=
  match s with
  | [] => Ok []
  | c :: rest =>
      match encode_cp c with
      | None => Raise UnicodeEncodeError
      | Some bs =>
          match encode_utf8 rest with
          | Ok r => Ok (bs ++ r)
          | Raise e => Raise e
          end
      end
  end.

(** The strings [encode] accepts. *)
Definition encodable_cp (c : N) : bool := negb (is_surrogate c) && (c <? 0x110000).
Definition encodable (s : str) : bool := forallb encodable_cp s.

(** Source literals: the text between the quotes of the source file is
    UTF-8; [lit] reads it back into code points. *)
Fixpoint decode_utf8 (bs : list N) : str :=
  match bs with
  | [] => []
  | b0 :: r0 =>
      if b0 <? 0x80 then b0 :: decode_utf8 r0
      else if b0 <? 0xE0 then
        match r0 with
        | b1 :: r1 =>
            (N.shiftl (N.land b0 0x1F) 6 + N.land b1 0x3F) :: decode_utf8 r1
        | [] => []
        end
      else if b0 <? 0xF0 then
        match r0 with
        | b1 :: b2 :: r2 =>
            (N.shiftl (N.land b0 0x0F) 12 + N.shiftl (N.land b1 0x3F) 6
             + N.land b2 0x3F) :: decode_utf8 r2
        | _ => []
        end
      else
        match r0 with
        | b1 :: b2 :: b3 :: r3 =>
            (N.shiftl (N.land b0 0x07) 18 + N.shiftl (N.land b1 0x3F) 12
             + N.shiftl (N.land b2 0x3F) 6 + N.land b3 0x3F) :: decode_utf8 r3
        | _ => []
        end
  end.

Definition of_string (s : string) : list N :=
  List.map N_of_ascii (list_ascii_of_string s).

Definition lit (s : string) : str := decode_utf8 (of_string s).

(** Values that reach the constructors through [*args]. *)
Inductive value : Type :=
| VStr (s : str)
| VInt (z : Z).

Definition value_eqb (a b : value) : bool :=
  match a, b with
  | VStr s, VStr t => str_eqb s t
  | VInt x, VInt y => Z.eqb x y
  | _, _ => false
  end.

(** [str(n)] for an [int]. *)
Definition str_of_int (z : Z) : str :=
  of_string (NilZero.string_of_int (Z.to_int z)).

(** [{v}] inside an f-string. *)
Definition format (v : value) : str :=
  match v with
  | VStr s => s
  | VInt z => str_of_int z
  end.

(** [s.split(sep, maxsplit=1)] with a one-character separator: the whole
    string when [sep] does not occur, else the text before the first
    occurrence and the text after it. *)
Fixpoint split_max1 (sep : N) (s : str) : list str :=
  match s with
  | [] => [[]]
  | c :: rest =>
      if c =? sep then [[]; rest]
      else match split_max1 sep rest with
           | hd :: tl => (c :: hd) :: tl
           | [] => [[c]]
           end
  end.

(** [a, b = xs] *)
Definition unpack2 {A : Type} (xs : list A) : result (A * A) :=
  match xs with
  | [a; b] => Ok (a, b)
  | _ => Raise ValueError
  end.

(** [xs.remove(x)]: drops the first element equal to [x], [ValueError]
    when there is none. *)
Fixpoint list_remove {A : Type} (eqb : A -> A -> bool) (x : A) (xs : list A)
  : result (list A) :=
  match xs with
  | [] => Raise ValueError
  | y :: rest =>
      if eqb y x then Ok rest
      else match list_remove eqb x rest with
           | Ok r => Ok (y :: r)
           | Raise e => Raise e
           end
  end.

Definition dollar : N := 0x24.
End Py.

(* ================================================================== *)
(** ** [hashlib.sha256(data).hexdigest()] *)
(* ================================================================== *)

Module SHA256.
Local Open Scope N_scope.

Definition mask32 : N := 0xFFFFFFFF.
Definition add32 (a b : N) : N := N.land (a + b) mask32.
Definition not32 (x : N) : N := N.lxor x mask32.
Definition rotr (n x : N) : N :=
  N.lor (N.shiftr x n) (N.land (N.shiftl x (32 - n)) mask32).

Definition ch (x y z : N) : N := N.lxor (N.land x y) (N.land (not32 x) z).
Definition maj (x y z : N) : N :=
  N.lxor (N.land x y) (N.lxor (N.land x z) (N.land y z)).
Definition bsig0 (x : N) : N := N.lxor (rotr 2 x) (N.lxor (rotr 13 x) (rotr 22 x)).
Definition bsig1 (x : N) : N := N.lxor (rotr 6 x) (N.lxor (rotr 11 x) (rotr 25 x)).
Definition ssig0 (x : N) : N := N.lxor (rotr 7 x) (N.lxor (rotr 18 x) (N.shiftr x 3)).
Definition ssig1 (x : N) : N := N.lxor (rotr 17 x) (N.lxor (rotr 19 x) (N.shiftr x 10)).

(** The constants of FIPS 180-4 are fractional parts of roots of the first
    primes, 32 bits each: cube roots of the first 64 for the rounds, square
    roots of the first 8 for the initial hash value. *)
Definition is_prime (n : N) : bool :=
  forallb (fun d => negb (n mod N.of_nat d =? 0)) (seq 2 (N.to_nat n - 2)).

Definition primes : list N :=
  filter is_prime (List.map N.of_nat (seq 2 310)).

(** Largest [r] below [2 ^ bits] with [r ^ 3 <= x]. *)
Fixpoint cube_root (bits : nat) (x r : N) : N :=
  match bits with
  | O => r
  | S k =>
      let r' := r + N.shiftl 1 (N.of_nat k) in
      cube_root k x (if r' * r' * r' <=? x then r' else r)
  end.

Definition frac_cube_root (p : N) : N :=
  N.land (cube_root 36 (N.shiftl p 96) 0) mask32.
Definition frac_square_root (p : N) : N :=
  N.land (N.sqrt (N.shiftl p 64)) mask32.

Definition K : list N := Eval vm_compute in List.map frac_cube_root primes.

Definition regs : Type := (N * N * N * N * N * N * N * N)%type.

Definition H0 : regs :=
  Eval vm_compute in
    match List.map frac_square_root (firstn 8 primes) with
    | [a; b; c; d; e; f; g; h] => (a, b, c, d, e, f, g, h)
    | _ => (0, 0, 0, 0, 0, 0, 0, 0)
    end.

(** [n] bytes of [x], most significant first. *)
Fixpoint be_bytes (n : nat) (x : N) : list N :=
  match n with
  | O => []
  | S k => N.land (N.shiftr x (8 * N.of_nat k)) 0xFF :: be_bytes k x
  end.

(** Message, the bit 1, zeros up to 56 modulo 64, the bit length on 8 bytes. *)
Definition pad (msg : list N) : list N :=
  let len := N.of_nat (List.length msg) in
  let zeros := N.to_nat ((119 - len mod 64) mod 64) in
  msg ++ [0x80] ++ repeat 0 zeros ++ be_bytes 8 (8 * len).

Fixpoint words (bs : list N) : list N :=
  match bs with
  | a :: b :: c :: d :: rest =>
      (N.shiftl a 24 + N.shiftl b 16 + N.shiftl c 8 + d) :: words rest
  | _ => []
  end.

Fixpoint blocks (n : nat) (ws : list N) : list (list N) :=
  match n with
  | O => []
  | S k => firstn 16 ws :: blocks k (skipn 16 ws)
  end.

(** The schedule is grown newest word first. *)
Definition next_w (rw : list N) : N :=
  add32 (add32 (ssig1 (nth 1 rw 0)) (nth 6 rw 0))
        (add32 (ssig0 (nth 14 rw 0)) (nth 15 rw 0)).

Fixpoint extend (n : nat) (rw : list N) : list N :=
  match n with
  | O => rw
  | S k => extend k (next_w rw :: rw)
  end.

Definition schedule (block : list N) : list N := rev (extend 48 (rev block)).

Definition round (s : regs) (kw : N * N) : regs :=
  let '(a, b, c, d, e, f, g, h) := s in
  let t1 := add32 (add32 (add32 h (bsig1 e)) (add32 (ch e f g) (fst kw))) (snd kw) in
  let t2 := add32 (bsig0 a) (maj a b c) in
  (add32 t1 t2, a, b, c, add32 d t1, e, f, g).

Definition compress (hv : regs) (block : list N) : regs :=
  let '(a, b, c, d, e, f, g, h) := fold_left round (combine K (schedule block)) hv in
  let '(a0, b0, c0, d0, e0, f0, g0, h0) := hv in
  (add32 a0 a, add32 b0 b, add32 c0 c, add32 d0 d,
   add32 e0 e, add32 f0 f, add32 g0 g, add32 h0 h).

Definition digest (msg : list N) : regs :=
  let ws := words (pad msg) in
  fold_left compress (blocks (List.length ws / 16) ws) H0.

(** Lower-case hexadecimal digit of a nibble. *)
Definition hex_digit (n : N) : N := if n <? 10 then 0x30 + n else 0x57 + n.

Definition nibble (w k : N) : N := hex_digit (N.land (N.shiftr w (4 * k)) 0xF).

Definition hex_word (w : N) : Py.str :=
  [nibble w 7; nibble w 6; nibble w 5; nibble w 4;
   nibble w 3; nibble w 2; nibble w 1; nibble w 0].

Definition hexdigest (data : Py.bytes) : Py.str :=
  let '(a, b, c, d, e, f, g, h) := digest (List.map Byte.to_N data) in
  hex_word a ++ hex_word b ++ hex_word c ++ hex_word d ++
  hex_word e ++ hex_word f ++ hex_word g ++ hex_word h.
End SHA256.

(* ================================================================== *)
(** ** The classes of [pro_users.py] *)
(* ================================================================== *)

Module Users.
Import Py.

Inductive user_class : Type :=
| Customer
| Admin.

(** Attributes set by [User.__init__]. *)
Record user_base : Type := mk_base {
  base_username : str;
  base_email : str;
  base_password_hashed : str
}.

(** An instance of one of the two subclasses.  No attribute is assigned
    outside the constructors, so an instance is the value of its
    attributes and a reference to it is a copy of that value. *)
Inductive user : Type :=
| CustomerObj (base : user_base) (address : value)
| AdminObj (base : user_base) (admin_level : value).

Definition base_of (u : user) : user_base :=
  match u with
  | CustomerObj b _ => b
  | AdminObj b _ => b
  end.

Definition username (u : user) : str := base_username (base_of u).
Definition email (u : user) : str := base_email (base_of u).
Definition password_hashed (u : user) : str := base_password_hashed (base_of u).

(** [u.__class__] and [isinstance(u, Admin)] *)
Definition class_of (u : user) : user_class :=
  match u with
  | CustomerObj _ _ => Customer
  | AdminObj _ _ => Admin
  end.

Definition class_name (c : user_class) : str :=
  match c with
  | Customer => lit "Customer"
  | Admin => lit "Admin"
  end.

Definition is_admin (u : user) : bool :=
  match u with
  | AdminObj _ _ => true
  | CustomerObj _ _ => false
  end.

Definition base_eqb (a b : user_base) : bool :=
  str_eqb (base_username a) (base_username b)
  && str_eqb (base_email a) (base_email b)
  && str_eqb (base_password_hashed a) (base_password_hashed b).

(** [a == b] on instances, which [list.remove] compares with.  Python
    compares the instances by identity; here they are compared by their
    attributes.  [delete_user] removes the instance its loop stopped at,
    the first one with the username looked for, and an instance with the
    same attributes has the same username: the element removed is the
    same one either way ([list_remove_found] below). *)
Definition user_eqb (a b : user) : bool :=
  match a, b with
  | CustomerObj x v, CustomerObj y w => base_eqb x y && value_eqb v w
  | AdminObj x v, AdminObj y w => base_eqb x y && value_eqb v w
  | _, _ => false
  end.

(** *** [User.hash_password], [User.check_password]

    [salt] is the value of [uuid.uuid4().hex] drawn by the call. *)

(** [[
    salt = uuid.uuid4().hex
    hash_value = hashlib.sha256((salt + password).encode("utf-8")).hexdigest()
    return f"{salt}${hash_value}"
    ]] *)
Definition hash_password (salt password : str) : result str :=
  match encode_utf8 (salt ++ password) with
  | Ok data => Ok (salt ++ [dollar] ++ SHA256.hexdigest data)
  | Raise e => Raise e
  end.

(** [[
    try:
        salt, stored_hash = stored_password.split("$", maxsplit=1)
    except ValueError:
        return False
    recalculated_hash = hashlib.sha256(
        (salt + provided_password).encode("utf-8")
    ).hexdigest()
    return stored_hash == recalculated_hash
    ]]
    The handler covers the first statement only. *)
Definition check_password (stored_password provided_password : str) : result bool :=
  match unpack2 (split_max1 dollar stored_password) with
  | Raise ValueError => Ok false
  | Raise e => Raise e
  | Ok (salt, stored_hash) =>
      match encode_utf8 (salt ++ provided_password) with
      | Ok data => Ok (str_eqb stored_hash (SHA256.hexdigest data))
      | Raise e => Raise e
      end
  end.

(** The 32 lower-case hexadecimal digits of a version-4 UUID. *)
Definition is_hex_digit (c : N) : bool :=
  ((0x30 <=? c) && (c <=? 0x39) || (0x61 <=? c) && (c <=? 0x66))%N.

Definition is_uuid4_hex (s : str) : bool :=
  (List.length s =? 32)%nat
  && forallb is_hex_digit s
  && (nth 12 s 0 =? 0x34)%N
  && existsb (N.eqb (nth 16 s 0%N)) [0x38; 0x39; 0x61; 0x62]%N.

(** *** [get_details] *)

Definition get_details (u : user) : str :=
  match u with
  | CustomerObj _ address =>
      lit "Клиент: " ++ username u ++ lit ", Email: " ++ email u
      ++ lit ", Адрес: " ++ format address
  | AdminObj _ admin_level =>
      lit "Админ: " ++ username u ++ lit ", Email: " ++ email u
      ++ lit ", Уровень доступа: " ++ format admin_level
  end.

(** *** Program state

    [users] is the class attribute [User.users], [stdout] the lines
    written by [print], the last two fields the attributes of the
    [AuthenticationService] instance. *)
Record state : Type := mk_state {
  users : list user;
  stdout : list str;
  current_user : option user;
  session_token : option str
}.

Definition M (A : Type) : Type := state -> result A * state.

Definition ret {A : Type} (a : A) : M A := fun st => (Ok a, st).
Definition raise {A : Type} (e : exn) : M A := fun st => (Raise e, st).
Definition bind {A B : Type} (m : M A) (k : A -> M B) : M B :=
  fun st =>
    match m st with
    | (Ok a, st') => k a st'
    | (Raise e, st') => (Raise e, st')
    end.
Definition lift {A : Type} (r : result A) : M A := fun st => (r, st).

Notation "x <- m ;; k" := (bind m (fun x => k))
  (at level 61, m at next level, right associativity).
Notation "m ;;; k" := (bind m (fun _ => k))
  (at level 61, right associativity).

Definition get_users : M (list user) := fun st => (Ok (users st), st).
Definition set_users (l : list user) : M unit :=
  fun st => (Ok tt, mk_state l (stdout st) (current_user st) (session_token st)).
Definition print (line : str) : M unit :=
  fun st => (Ok tt, mk_state (users st) (stdout st ++ [line])
                             (current_user st) (session_token st)).
Definition get_current : M (option user) := fun st => (Ok (current_user st), st).
Definition set_session (u : option user) (t : option str) : M unit :=
  fun st => (Ok tt, mk_state (users st) (stdout st) u t).

(** [AuthenticationService()] in a fresh process. *)
Definition init : state := mk_state [] [] None None.

(** *** Constructors

    [user_class(username, email, password, *args)]: both subclasses take
    exactly one more argument.  [User.__init__] hashes the password and
    appends [self] to [User.users]; the subclass then stores its own
    attribute on the same object. *)
Definition instance (c : user_class) (base : user_base) (x : value) : user :=
  match c with
  | Customer => CustomerObj base x
  | Admin => AdminObj base x
  end.

Definition construct (c : user_class) (username email password : str)
           (args : list value) (salt : str) : M user :=
  match args with
  | [x] =>
      digest <- lift (hash_password salt password) ;;
      let self := instance c (mk_base username email digest) x in
      l <- get_users ;;
      set_users (l ++ [self]) ;;;
      ret self
  | _ => raise TypeError
  end.

(** First instance of the list whose username is [name]: the element at
    which the loops [for user in ...: if user.username == username]
    leave. *)
Definition find_user (name : str) (l : list user) : option user :=
  find (fun user => str_eqb (username user) name) l.

(** *** [Admin.list_users], [Admin.delete_user] (static methods) *)

Fixpoint print_all (l : list user) : M unit :=
  match l with
  | [] => ret tt
  | user :: rest => print (lit "- " ++ get_details user) ;;; print_all rest
  end.

Definition list_users : M unit :=
  l <- get_users ;;
  match l with
  | [] => print (lit "Пользователей пока нет.")
  | _ => print (lit "Список пользователей:") ;;; print_all l
  end.

Definition msg_deleted (name : str) : str :=
  lit "Пользователь " ++ name ++ lit " удалён.".
Definition msg_not_deleted (name : str) : str :=
  lit "Пользователь " ++ name ++ lit " не найден.".

(** [[
    for user in list(User.users):
        if user.username == username:
            User.users.remove(user)
            print(f"Пользователь {username} удалён.")
            return True
    print(f"Пользователь {username} не найден.")
    return False
    ]] *)
Definition delete_user (name : str) : M bool :=
  snapshot <- get_users ;;
  match find_user name snapshot with
  | Some user =>
      l <- get_users ;;
      l' <- lift (list_remove user_eqb user l) ;;
      set_users l' ;;;
      print (msg_deleted name) ;;;
      ret true
  | None =>
      print (msg_not_deleted name) ;;;
      ret false
  end.

(** *** [AuthenticationService] *)

Definition msg_already_exists (name : str) : str :=
  lit "Ошибка: пользователь с именем " ++ name ++ lit " уже существует.".
Definition msg_registered (name : str) (c : user_class) : str :=
  lit "Пользователь " ++ name ++ lit " успешно зарегистрирован как "
  ++ class_name c ++ lit ".".

(** [[
    for user in User.users:
        if user.username == username:
            return f"Ошибка: пользователь с именем {username} уже существует."
    new_user = user_class(username, email, password, *args)
    return (f"Пользователь {new_user.username} успешно зарегистрирован как "
            f"{new_user.__class__.__name__}.")
    ]] *)
Definition register (c : user_class) (name email password : str)
           (args : list value) (salt : str) : M str :=
  l <- get_users ;;
  match find_user name l with
  | Some _ => ret (msg_already_exists name)
  | None =>
      new_user <- construct c name email password args salt ;;
      ret (msg_registered (username new_user) (class_of new_user))
  end.

Definition msg_logged_in (name token : str) : str :=
  lit "Успешный вход. Текущий пользователь: " ++ name
  ++ lit ", токен сессии: " ++ token.
Definition msg_wrong_password : str := lit "Ошибка: неверный пароль.".
Definition msg_user_not_found (name : str) : str :=
  lit "Ошибка: пользователь " ++ name ++ lit " не найден.".

(** [[
    for user in User.users:
        if user.username == username:
            if User.check_password(user.password_hashed, password):
                self.current_user = user
                self.session_token = uuid.uuid4().hex
                return (f"Успешный вход. Текущий пользователь: {user.username}, "
                        f"токен сессии: {self.session_token}")
            else:
                return "Ошибка: неверный пароль."
    return f"Ошибка: пользователь {username} не найден."
    ]]
    [token] is the value of [uuid.uuid4().hex] drawn on success. *)
Definition login (name password token : str) : M str :=
  l <- get_users ;;
  match find_user name l with
  | Some user =>
      ok <- lift (check_password (password_hashed user) password) ;;
      if ok then
        set_session (Some user) (Some token) ;;;
        ret (msg_logged_in (username user) token)
      else ret msg_wrong_password
  | None => ret (msg_user_not_found name)
  end.

Definition msg_nobody_to_log_out : str := lit "Ошибка: никто не вошёл в систему.".
Definition msg_logged_out (name : str) : str :=
  lit "Пользователь " ++ name ++ lit " вышел из системы.".

(** [[
    if self.current_user is None:
        return "Ошибка: никто не вошёл в систему."
    username = self.current_user.username
    self.current_user = None
    self.session_token = None
    return f"Пользователь {username} вышел из системы."
    ]] *)
Definition logout : M str :=
  cur <- get_current ;;
  match cur with
  | None => ret msg_nobody_to_log_out
  | Some u =>
      let name := username u in
      set_session None None ;;;
      ret (msg_logged_out name)
  end.

Definition msg_nobody : str := lit "Сейчас никто не вошёл в систему.".
Definition msg_current (u : user) : str := lit "Сейчас в системе: " ++ get_details u.

Definition get_current_user : M str :=
  cur <- get_current ;;
  match cur with
  | None => ret msg_nobody
  | Some u => ret (msg_current u)
  end.
End Users.

(* ================================================================== *)
(** ** Sequences of calls *)
(* ================================================================== *)

Module Trace.
Import Py Users.

(** One call of the public interface, with the random values it draws. *)
Inductive call : Type :=
| Register (c : user_class) (name email password : str)
           (args : list value) (salt : str)
| Login (name password token : str)
| Logout
| GetCurrentUser
| ListUsers
| DeleteUser (name : str).

(** State left by a call, whether it returns or raises. *)
Definition step (c : call) (st : state) : state :=
  match c with
  | Register cl n e p a s => snd (register cl n e p a s st)
  | Login n p t => snd (login n p t st)
  | Logout => snd (logout st)
  | GetCurrentUser => snd (get_current_user st)
  | ListUsers => snd (list_users st)
  | DeleteUser n => snd (delete_user n st)
  end.

Definition run (cs : list call) (st : state) : state :=
  fold_left (fun s c => step c s) cs st.
End Trace.

(* ================================================================== *)
(** ** Vocabulary of the properties *)
(* ================================================================== *)

Module Props.
Import Py Users Trace.

(** The two shapes of the session. *)
Definition anonymous (st : state) : bool :=
  match current_user st, session_token st with
  | None, None => true
  | _, _ => false
  end.

Definition authenticated (st : state) : bool :=
  match current_user st, session_token st with
  | Some _, Some _ => true
  | _, _ => false
  end.

(** Exactly one of the two shapes. *)
Definition session_shape (st : state) : Prop :=
  xorb (anonymous st) (authenticated st) = true.

(** Distinct usernames, no empty digest. *)
Definition registry_ok (l : list user) : Prop :=
  NoDup (List.map username l) /\ Forall (fun u => password_hashed u <> []) l.

(** [isinstance(auth_service.current_user, Admin)], the test the script
    at the end of the module makes before it calls the static methods. *)
Definition session_is_admin (st : state) : bool :=
  match current_user st with
  | Some u => is_admin u
  | None => false
  end.

(** The list without its first instance named [name]. *)
Fixpoint drop_user (name : str) (l : list user) : list user :=
  match l with
  | [] => []
  | u :: rest =>
      if str_eqb (username u) name then rest else u :: drop_user name rest
  end.

(** The lines [list_users] writes for a registry. *)
Definition listing (l : list user) : list str :=
  match l with
  | [] => [lit "Пользователей пока нет."]
  | _ => lit "Список пользователей:"
         :: List.map (fun u => lit "- " ++ get_details u) l
  end.

Definition with_users (st : state) (l : list user) : state :=
  mk_state l (stdout st) (current_user st) (session_token st).
Definition with_output (st : state) (lines : list str) : state :=
  mk_state (users st) (stdout st ++ lines) (current_user st) (session_token st).
Definition with_session (st : state) (u : option user) (t : option str) : state :=
  mk_state (users st) (stdout st) u t.
End Props.

(* ================================================================== *)
(** ** The script at the end of the module, and two sessions *)
(* ================================================================== *)

Module Demo.
Import Py Users Trace.

Definition mikhail : str := lit "mikhail".
Definition root : str := lit "root".

(** Values standing for the three draws of [uuid.uuid4().hex]. *)
Definition salt_mikhail : str := lit "0123456789ab4def8123456789abcdef".
Definition salt_root : str := lit "fedcba9876544210a123456789abcdef".
Definition token : str := lit "5a1f0c3e9b7d4e2f8a6b4c2d0e1f3a5b".

Definition register_mikhail : call :=
  Register Customer mikhail (lit "mikhail@example.com") (lit "pass123")
           [VStr (lit "Moscow, Red Square")] salt_mikhail.
Definition register_root : call :=
  Register Admin root (lit "admin@example.com") (lit "adminpass")
           [VInt 10] salt_root.

(** The calls under [if __name__ == "__main__"], in order (the test
    [isinstance(auth_service.current_user, Admin)] holds there). *)
Definition script : list call :=
  [ register_mikhail; register_root;
    Register Customer mikhail (lit "other@example.com") (lit "qwerty")
             [VStr (lit "Somewhere")] salt_mikhail;
    Login mikhail (lit "pass123") token; GetCurrentUser; Logout;
    Login root (lit "adminpass") token; GetCurrentUser;
    ListUsers; DeleteUser mikhail; ListUsers;
    Logout ].

Definition registered : state := run [register_mikhail; register_root] init.

(** The digest [hash_password] stores for a draw and a password. *)
Definition digest_of (salt password : str) : str :=
  match hash_password salt password with
  | Ok digest => digest
  | Raise _ => []
  end.

(** The two instances the registrations create. *)
Definition mikhail_user : user :=
  CustomerObj (mk_base mikhail (lit "mikhail@example.com")
                       (digest_of salt_mikhail (lit "pass123")))
              (VStr (lit "Moscow, Red Square")).
Definition root_user : user :=
  AdminObj (mk_base root (lit "admin@example.com")
                    (digest_of salt_root (lit "adminpass")))
           (VInt 10).

(** The customer is logged in. *)
Definition customer_session : state :=
  run [Login mikhail (lit "pass123") token] registered.

(** The administrator is logged in. *)
Definition admin_session : state :=
  run [Login root (lit "adminpass") token] registered.
End Demo.

(* ================================================================== *)
(** ** [User.get_details], and the cart of [classes/shoping_carts.py] *)
(* ================================================================== *)

Module Cart.
Import Py Users.

(** [User.get_details], the method the two subclasses override:
    [[
    return f"Пользователь: {self.username}, Email: {self.email}"
    ]] *)
Definition User_get_details (b : user_base) : str :=
  lit "Пользователь: " ++ base_username b ++ lit ", Email: " ++ base_email b.

(** [sep.join(xs)] *)
Fixpoint join (sep : str) (xs : list str) : str :=
  match xs with
  | [] => []
  | [x] => x
  | x :: rest => x ++ sep ++ join sep rest
  end.

Definition newline : str := [0x0A%N].

(** Modelled from the spec: the product classes are not in these files.  A
    product is what the cart reads of it: the attributes [name] and [price]
    and the result of [get_details()].  Prices and quantities are Python
    [int]s. *)
Record product : Type := mk_product {
  product_name : str;
  product_price : Z;
  product_details : str
}.

(** [ShoppingCart]: [items] is the list of pairs [(product, quantity)]. *)
Record cart : Type := mk_cart {
  customer : user;
  registered_by : user;
  items : list (product * Z)
}.

(** [ShoppingCart(customer, registered_by)] *)
Definition new_cart (customer registered_by : user) : cart :=
  mk_cart customer registered_by [].

(** [self.items.append((product, quantity))] *)
Definition add_item (c : cart) (p : product) (quantity : Z) : cart :=
  mk_cart (customer c) (registered_by c) (items c ++ [(p, quantity)]).

(** [[
    self.items = [(product, quantity) for (product, quantity) in self.items
                  if product.name != product_name]
    ]] *)
Definition remove_item (c : cart) (name : str) : cart :=
  mk_cart (customer c) (registered_by c)
          (filter (fun pq => negb (str_eqb (product_name (fst pq)) name)) (items c)).

(** [sum(xs)]: the additions start from [0], left to right. *)
Definition py_sum (xs : list Z) : Z := fold_left Z.add xs 0%Z.

(** [sum(product.price * quantity for product, quantity in self.items)] *)
Definition get_total (c : cart) : Z :=
  py_sum (List.map (fun pq => (product_price (fst pq) * snd pq)%Z) (items c)).

Definition item_line (pq : product * Z) : str :=
  lit "- " ++ product_details (fst pq) ++ lit ", Количество: " ++ str_of_int (snd pq).

(** The text returned for a cart without items. *)
Definition nothing_bought (c : cart) : str :=
  lit "Покупатель " ++ username (customer c) ++ lit " пока ничего не купил."
  ++ newline
  ++ lit "Покупки зарегистрировал пользователь " ++ username (registered_by c).

(** [ShoppingCart.get_details] *)
Definition get_details (c : cart) : str :=
  match items c with
  | [] => nothing_bought c
  | _ =>
      join newline
        ([lit "Покупатель " ++ username (customer c) ++ lit " приобрел:"]
         ++ List.map item_line (items c)
         ++ [lit "Общая сумма: " ++ str_of_int (get_total c) ++ lit " руб."]
         ++ [lit "Покупки зарегистрировал пользователь "
             ++ username (registered_by c)])
  end.

(** The entries of a cart for a product name. *)
Definition named (name : str) (pq : product * Z) : bool :=
  str_eqb (product_name (fst pq)) name.

(** Two products and a cart of the customer of the script. *)
Definition laptop : product :=
  mk_product (lit "Laptop") 75000 (lit "Laptop, 75000").
Definition mouse : product :=
  mk_product (lit "Mouse") 1500 (lit "Mouse, 1500").
Definition demo_cart : cart :=
  add_item (add_item (add_item (new_cart Demo.mikhail_user Demo.root_user)
                               laptop 1) mouse 2) laptop 3.
End Cart.

(* ================================================================== *)
(** ** Draws of [uuid.uuid4().hex] along a sequence of calls *)
(* ================================================================== *)

Module Draws.
Import Py Users Trace.

(** The salt a registration draws is the hexadecimal form of a UUID. *)
Definition uuid_salt (c : call) : bool :=
  match c with
  | Register _ _ _ _ _ salt => is_uuid4_hex salt
  | _ => true
  end.

Definition uuid_salts (cs : list call) : bool := forallb uuid_salt cs.

(** A stored digest of the shape [hash_password] writes: 32 hexadecimal
    digits, the delimiter, 64 hexadecimal digits. *)
Definition well_formed_digest (d : str) : bool :=
  (List.length d =? 97)%nat
  && forallb is_hex_digit (firstn 32 d)
  && N.eqb (nth 32 d 0%N) dollar
  && forallb is_hex_digit (skipn 33 d).

(** Every digest of a registry has that shape. *)
Definition digests_ok (l : list user) : Prop :=
  forallb (fun u => well_formed_digest (password_hashed u)) l = true.
End Draws.

(* ================================================================== *)
(** ** Facts about the Python fragment *)
(* ================================================================== *)

Import Py Users Trace Props.

Section StrFacts.
Local Open Scope N_scope.

Lemma str_eqb_refl (a : str) : str_eqb a a = true.
Proof.
  induction a as [|x a IH]; simpl; [reflexivity|].
  now rewrite N.eqb_refl, IH.
Qed.

Lemma str_eqb_eq (a b : str) : str_eqb a b = true <-> a = b.
Proof.
  split; [|intros ->; apply str_eqb_refl].
  revert b; induction a as [|x a IH]; intros [|y b]; simpl; try discriminate; auto.
  intros H; apply andb_true_iff in H as [Hx Hr].
  apply N.eqb_eq in Hx; subst; f_equal; auto.
Qed.

Lemma str_eqb_neq (a b : str) : str_eqb a b = false <-> a <> b.
Proof.
  split.
  - intros H E; apply str_eqb_eq in E; congruence.
  - intros H; destruct (str_eqb a b) eqn:E; [|reflexivity].
    apply str_eqb_eq in E; contradiction.
Qed.

(** *** [split] *)

Lemma split_max1_absent (sep : N) (s : str) :
  ~ In sep s -> split_max1 sep s = [s].
Proof.
  induction s as [|c s IH]; simpl; intros H; [reflexivity|].
  destruct (c =? sep) eqn:E.
  - apply N.eqb_eq in E; subst; exfalso; apply H; now left.
  - rewrite IH; [reflexivity | intros Hin; apply H; now right].
Qed.

Lemma split_max1_first (sep : N) (a b : str) :
  ~ In sep a -> split_max1 sep (a ++ sep :: b) = [a; b].
Proof.
  induction a as [|c a IH]; simpl; intros H.
  - now rewrite N.eqb_refl.
  - destruct (c =? sep) eqn:E.
    + apply N.eqb_eq in E; subst; exfalso; apply H; now left.
    + rewrite IH; [reflexivity | intros Hin; apply H; now right].
Qed.

(** Every string is of exactly one of the two shapes. *)
Lemma split_max1_cases (sep : N) (s : str) :
  (~ In sep s /\ split_max1 sep s = [s]) \/
  (exists a b, s = a ++ sep :: b /\ ~ In sep a /\ split_max1 sep s = [a; b]).
Proof.
  induction s as [|c s IH].
  - left; split; [intros [] | reflexivity].
  - destruct (N.eqb_spec c sep) as [->|Hne].
    + right; exists [], s; repeat split; [intros [] | simpl; now rewrite N.eqb_refl].
    + destruct IH as [[Habs _] | (a & b & -> & Ha & _)].
      * left; assert (~ In sep (c :: s)) by (intros [E|Hin]; [congruence | auto]).
        split; [assumption | now apply split_max1_absent].
      * right; exists (c :: a), b.
        assert (~ In sep (c :: a)) by (intros [E|Hin]; [congruence | auto]).
        repeat split; [assumption | now apply (split_max1_first sep (c :: a) b)].
Qed.

(** *** [encode] *)

Lemma encode_cp_spec (c : N) :
  if encodable_cp c then exists bs, encode_cp c = Some bs
  else encode_cp c = None.
Proof.
  unfold encodable_cp, encode_cp, is_surrogate.
  destruct (c <? 0x80) eqn:E1; [apply N.ltb_lt in E1|apply N.ltb_ge in E1].
  { replace (0xD800 <=? c) with false by (symmetry; apply N.leb_gt; lia).
    replace (c <? 0x110000) with true by (symmetry; apply N.ltb_lt; lia).
    cbn [negb andb]; eauto. }
  destruct (c <? 0x800) eqn:E2; [apply N.ltb_lt in E2|apply N.ltb_ge in E2].
  { replace (0xD800 <=? c) with false by (symmetry; apply N.leb_gt; lia).
    replace (c <? 0x110000) with true by (symmetry; apply N.ltb_lt; lia).
    cbn [negb andb]; eauto. }
  destruct (c <? 0x10000) eqn:E3; [apply N.ltb_lt in E3|apply N.ltb_ge in E3].
  { replace (c <? 0x110000) with true by (symmetry; apply N.ltb_lt; lia).
    destruct ((0xD800 <=? c) && (c <=? 0xDFFF)); cbn [negb andb]; eauto. }
  replace (c <=? 0xDFFF) with false by (symmetry; apply N.leb_gt; lia).
  rewrite andb_false_r; cbn [negb andb].
  destruct (c <? 0x110000); eauto.
Qed.

Lemma encode_utf8_spec (s : str) :
  if encodable s then exists bs, encode_utf8 s = Ok bs
  else encode_utf8 s = Raise UnicodeEncodeError.
Proof.
  induction s as [|c s IH]; simpl; [eauto|].
  pose proof (encode_cp_spec c) as Hc.
  destruct (encodable_cp c); simpl.
  - destruct Hc as [bs ->].
    fold (encodable s).
    destruct (encodable s).
    + destruct IH as [r ->]; eauto.
    + now rewrite IH.
  - now rewrite Hc.
Qed.

Lemma encode_utf8_ok (s : str) :
  encodable s = true -> exists bs, encode_utf8 s = Ok bs.
Proof. intros H; pose proof (encode_utf8_spec s) as S; now rewrite H in S. Qed.

Lemma encode_utf8_raise (s : str) (e : exn) :
  encode_utf8 s = Raise e -> e = UnicodeEncodeError /\ encodable s = false.
Proof.
  intros H; pose proof (encode_utf8_spec s) as S.
  destruct (encodable s).
  - destruct S as [bs E]; congruence.
  - split; congruence.
Qed.

Lemma encodable_app (a b : str) :
  encodable (a ++ b) = encodable a && encodable b.
Proof. apply forallb_app. Qed.

(** *** Hexadecimal digits *)

Lemma hex_digit_is_hex (n : N) : n < 16 -> is_hex_digit (SHA256.hex_digit n) = true.
Proof.
  intros H; unfold SHA256.hex_digit, is_hex_digit.
  destruct (n <? 10) eqn:E; [apply N.ltb_lt in E|apply N.ltb_ge in E].
  - apply orb_true_iff; left; apply andb_true_iff; split; apply N.leb_le; lia.
  - apply orb_true_iff; right; apply andb_true_iff; split; apply N.leb_le; lia.
Qed.

Lemma nibble_is_hex (w k : N) : is_hex_digit (SHA256.nibble w k) = true.
Proof.
  unfold SHA256.nibble; apply hex_digit_is_hex.
  change 0xF with (N.ones 4); rewrite N.land_ones.
  apply N.mod_lt; discriminate.
Qed.

Lemma hex_word_is_hex (w : N) : forallb is_hex_digit (SHA256.hex_word w) = true.
Proof.
  unfold SHA256.hex_word; cbn [forallb]; now rewrite !nibble_is_hex.
Qed.

(** [hexdigest] returns 64 lower-case hexadecimal digits. *)
Lemma hexdigest_is_hex (data : bytes) :
  forallb is_hex_digit (SHA256.hexdigest data) = true
  /\ List.length (SHA256.hexdigest data) = 64%nat.
Proof.
  unfold SHA256.hexdigest.
  destruct (SHA256.digest _) as [[[[[[[a b] c] d] e] f] g] h].
  split.
  - now rewrite !forallb_app, !hex_word_is_hex.
  - now rewrite !length_app.
Qed.

Lemma hex_digit_not_dollar (s : str) :
  forallb is_hex_digit s = true -> ~ In dollar s.
Proof.
  intros H Hin; rewrite forallb_forall in H; specialize (H _ Hin); discriminate.
Qed.

Lemma hex_digit_encodable (s : str) :
  forallb is_hex_digit s = true -> encodable s = true.
Proof.
  unfold encodable; rewrite !forallb_forall; intros H c Hin; specialize (H c Hin).
  unfold is_hex_digit in H; unfold encodable_cp, is_surrogate.
  apply orb_true_iff in H as [H|H]; apply andb_true_iff in H as [H1 H2];
    apply N.leb_le in H1, H2;
    (replace (0xD800 <=? c) with false by (symmetry; apply N.leb_gt; lia));
    simpl; apply N.ltb_lt; lia.
Qed.

Lemma uuid4_hex_is_hex (s : str) :
  is_uuid4_hex s = true -> forallb is_hex_digit s = true.
Proof.
  unfold is_uuid4_hex; intros H.
  repeat (apply andb_true_iff in H as [H ?]); assumption.
Qed.
End StrFacts.

(* ================================================================== *)
(** ** Password digests *)
(* ================================================================== *)

Section PasswordFacts.

(** A digest whose salt holds no delimiter is split at the delimiter
    written by [hash_password]. *)
Lemma check_password_parts (salt stored_hash provided : str) :
  ~ In dollar salt ->
  check_password (salt ++ dollar :: stored_hash) provided =
  match encode_utf8 (salt ++ provided) with
  | Ok data => Ok (str_eqb stored_hash (SHA256.hexdigest data))
  | Raise e => Raise e
  end.
Proof.
  intros H; unfold check_password.
  now rewrite (split_max1_first dollar salt stored_hash H).
Qed.

(** X20.  No delimiter in the stored string: the unpacking fails and the
    handler answers [False], for every candidate; the candidate is not
    even encoded, so nothing is raised. *)
Lemma check_password_no_delimiter (stored provided : str) :
  ~ In dollar stored -> check_password stored provided = Ok false.
Proof.
  intros H; unfold check_password.
  now rewrite (split_max1_absent dollar stored H).
Qed.

(** When it answers at all, [check_password] answers [True] on exactly
    the digests [hash_password] writes for the candidate. *)
Lemma check_password_true_iff (stored provided : str) :
  check_password stored provided = Ok true <->
  exists salt data,
    ~ In dollar salt /\ encode_utf8 (salt ++ provided) = Ok data
    /\ stored = salt ++ dollar :: SHA256.hexdigest data.
Proof.
  split.
  - destruct (split_max1_cases dollar stored) as [[Habs _] | (a & b & -> & Ha & _)].
    + unfold check_password; rewrite (split_max1_absent dollar stored Habs).
      discriminate.
    + rewrite (check_password_parts _ _ _ Ha).
      destruct (encode_utf8 (a ++ provided)) as [data|e] eqn:E; [|discriminate].
      intros H; injection H as H; apply str_eqb_eq in H; subst b.
      exists a, data; auto.
  - intros (salt & data & Hs & E & ->).
    now rewrite (check_password_parts _ _ _ Hs), E, str_eqb_refl.
Qed.

(** X19.  The only exception that leaves [check_password] is
    [UnicodeEncodeError], and it does exactly when the stored string has
    a delimiter and the text before its first delimiter, followed by the
    candidate, holds a code point the UTF-8 codec refuses. *)
Lemma check_password_raise_iff (stored provided : str) (e : exn) :
  check_password stored provided = Raise e <->
  e = UnicodeEncodeError /\
  exists salt rest,
    stored = salt ++ dollar :: rest /\ ~ In dollar salt
    /\ encodable (salt ++ provided) = false.
Proof.
  split.
  - destruct (split_max1_cases dollar stored) as [[Habs _] | (a & b & -> & Ha & _)].
    + unfold check_password; rewrite (split_max1_absent dollar stored Habs).
      discriminate.
    + rewrite (check_password_parts _ _ _ Ha).
      destruct (encode_utf8 (a ++ provided)) as [data|e'] eqn:E; [discriminate|].
      intros H; injection H as ->.
      apply encode_utf8_raise in E as [-> E]; split; [reflexivity|].
      exists a, b; auto.
  - intros (-> & salt & rest & -> & Hs & E).
    rewrite (check_password_parts _ _ _ Hs).
    pose proof (encode_utf8_spec (salt ++ provided)) as S.
    rewrite E in S; now rewrite S.
Qed.

(** On strings the UTF-8 codec accepts, [check_password] always answers. *)
Lemma check_password_answers (stored provided : str) :
  encodable stored = true -> encodable provided = true ->
  exists b, check_password stored provided = Ok b.
Proof.
  intros Hs Hp.
  destruct (split_max1_cases dollar stored) as [[Habs _] | (a & b & -> & Ha & _)].
  - exists false; unfold check_password.
    now rewrite (split_max1_absent dollar stored Habs).
  - rewrite (check_password_parts _ _ _ Ha).
    rewrite encodable_app in Hs; apply andb_true_iff in Hs as [Hs _].
    assert (Hx : encodable (a ++ provided) = true)
      by now rewrite encodable_app, Hs, Hp.
    destruct (encode_utf8_ok _ Hx) as [data ->]; eauto.
Qed.

(** More than one delimiter: the second field is not a hexadecimal
    digest, the comparison fails. *)
Lemma check_password_extra_delimiter (salt rest provided : str) :
  ~ In dollar salt -> In dollar rest ->
  encodable (salt ++ provided) = true ->
  check_password (salt ++ dollar :: rest) provided = Ok false.
Proof.
  intros Hs Hr Hx.
  rewrite (check_password_parts _ _ _ Hs).
  destruct (encode_utf8_ok _ Hx) as [data ->].
  f_equal; apply str_eqb_neq; intros ->.
  now apply (hex_digit_not_dollar _ (proj1 (hexdigest_is_hex data))).
Qed.

Lemma hash_password_spec (salt password : str) :
  hash_password salt password =
  match encode_utf8 (salt ++ password) with
  | Ok data => Ok (salt ++ dollar :: SHA256.hexdigest data)
  | Raise e => Raise e
  end.
Proof. reflexivity. Qed.

(** A digest is never the empty string. *)
Lemma hash_password_nonempty (salt password digest : str) :
  hash_password salt password = Ok digest -> digest <> [].
Proof.
  rewrite hash_password_spec.
  destruct (encode_utf8 (salt ++ password)); [|discriminate].
  intros H; injection H as <-; now destruct salt.
Qed.

(** With the salt of a version-4 UUID, the digest has the shape
    [salt$hash]: 32 and 64 hexadecimal digits around one delimiter. *)
Lemma hash_password_shape (salt password digest : str) :
  is_uuid4_hex salt = true ->
  hash_password salt password = Ok digest ->
  exists h, digest = salt ++ dollar :: h
            /\ forallb is_hex_digit h = true /\ List.length h = 64%nat.
Proof.
  intros _; rewrite hash_password_spec.
  destruct (encode_utf8 (salt ++ password)) as [data|]; [|discriminate].
  intros H; injection H as <-.
  exists (SHA256.hexdigest data); split; [reflexivity | apply hexdigest_is_hex].
Qed.
End PasswordFacts.

(* ================================================================== *)
(** ** The methods, call by call *)
(* ================================================================== *)

Section Equality.
Lemma value_eqb_eq (a b : value) : value_eqb a b = true <-> a = b.
Proof.
  destruct a as [s|x], b as [t|y]; simpl; split; try discriminate.
  - intros H; apply str_eqb_eq in H; congruence.
  - intros H; injection H as ->; apply str_eqb_refl.
  - intros H; apply Z.eqb_eq in H; congruence.
  - intros H; injection H as ->; apply Z.eqb_refl.
Qed.

Lemma base_eqb_eq (a b : user_base) : base_eqb a b = true <-> a = b.
Proof.
  destruct a as [n e p], b as [n' e' p']; unfold base_eqb; simpl.
  rewrite !andb_true_iff, !str_eqb_eq.
  split; [intros [[-> ->] ->]; reflexivity | intros H; injection H; auto].
Qed.

Lemma user_eqb_eq (a b : user) : user_eqb a b = true <-> a = b.
Proof.
  destruct a as [x v|x v], b as [y w|y w]; simpl;
    rewrite ?andb_true_iff, ?base_eqb_eq, ?value_eqb_eq;
    split; try discriminate;
    solve [intros [-> ->]; reflexivity | intros H; injection H; auto].
Qed.

Lemma user_eqb_refl (a : user) : user_eqb a a = true.
Proof. now apply user_eqb_eq. Qed.
End Equality.

Section Registry.
Lemma find_user_some (name : str) (l : list user) (u : user) :
  find_user name l = Some u -> In u l /\ username u = name.
Proof.
  unfold find_user; intros H; apply find_some in H as [Hin E].
  apply str_eqb_eq in E; auto.
Qed.

Lemma find_user_none (name : str) (l : list user) :
  find_user name l = None <-> ~ In name (List.map username l).
Proof.
  unfold find_user; induction l as [|u l IH]; simpl.
  - split; [intros _ [] | reflexivity].
  - destruct (str_eqb (username u) name) eqn:E.
    + apply str_eqb_eq in E; split; [discriminate | intros H; exfalso; auto].
    + apply str_eqb_neq in E; rewrite IH; split.
      * intros H [E'|Hin]; auto.
      * intros H Hin; apply H; now right.
Qed.

Lemma find_user_in (name : str) (l : list user) :
  (exists u, In u l /\ username u = name) -> exists v, find_user name l = Some v.
Proof.
  intros (u & Hin & E).
  destruct (find_user name l) as [v|] eqn:F; [eauto|].
  apply find_user_none in F; exfalso; apply F.
  rewrite <- E; now apply in_map.
Qed.

(** [remove] of the instance the loop stopped at drops the first
    instance with the username looked for. *)
Lemma list_remove_found (name : str) (l : list user) (u : user) :
  find_user name l = Some u -> list_remove user_eqb u l = Ok (drop_user name l).
Proof.
  unfold find_user; induction l as [|y l IH]; simpl; [discriminate|].
  destruct (str_eqb (username y) name) eqn:E.
  - intros H; injection H as ->; now rewrite user_eqb_refl.
  - intros H; destruct (user_eqb y u) eqn:Ey.
    + apply user_eqb_eq in Ey; subst y.
      apply find_some in H as [_ H]; congruence.
    + now rewrite (IH H).
Qed.

Lemma drop_user_absent (name : str) (l : list user) :
  find_user name l = None -> drop_user name l = l.
Proof.
  unfold find_user; induction l as [|y l IH]; simpl; [reflexivity|].
  destruct (str_eqb (username y) name); [discriminate|].
  intros H; now rewrite (IH H).
Qed.

Lemma drop_user_incl (name : str) (l : list user) (u : user) :
  In u (drop_user name l) -> In u l.
Proof.
  induction l as [|y l IH]; simpl; [auto|].
  destruct (str_eqb (username y) name); simpl; intuition.
Qed.

Lemma drop_user_length (name : str) (l : list user) (u : user) :
  find_user name l = Some u -> S (List.length (drop_user name l)) = List.length l.
Proof.
  unfold find_user; induction l as [|y l IH]; simpl; [discriminate|].
  destruct (str_eqb (username y) name); [reflexivity|].
  intros H; simpl; now rewrite (IH H).
Qed.

Lemma drop_user_nodup (name : str) (l : list user) :
  NoDup (List.map username l) -> NoDup (List.map username (drop_user name l)).
Proof.
  induction l as [|y l IH]; simpl; [auto|].
  intros H; inversion H as [|? ? Hy Hl]; subst.
  destruct (str_eqb (username y) name); [assumption|].
  simpl; constructor; [|auto].
  intros Hin; apply Hy.
  apply in_map_iff in Hin as (v & Ev & Hv).
  apply in_map_iff; exists v; split; [assumption|].
  now apply drop_user_incl in Hv.
Qed.

(** With distinct usernames nobody named [name] is left. *)
Lemma drop_user_gone (name : str) (l : list user) :
  NoDup (List.map username l) -> ~ In name (List.map username (drop_user name l)).
Proof.
  induction l as [|y l IH]; simpl; [auto|].
  intros H; inversion H as [|? ? Hy Hl]; subst.
  destruct (str_eqb (username y) name) eqn:E.
  - apply str_eqb_eq in E; now subst.
  - apply str_eqb_neq in E; simpl; intros [E'|Hin]; [auto | now apply IH].
Qed.

(** The other principals stay, in their order. *)
Lemma drop_user_others (name : str) (l : list user) :
  filter (fun u => negb (str_eqb (username u) name)) (drop_user name l)
  = filter (fun u => negb (str_eqb (username u) name)) l.
Proof.
  induction l as [|y l IH]; simpl; [reflexivity|].
  destruct (str_eqb (username y) name) eqn:E; simpl; [reflexivity|].
  now rewrite E, IH.
Qed.
End Registry.

Section Methods.
Variable st : state.

Lemma with_users_same : with_users st (users st) = st.
Proof. now destruct st. Qed.

Lemma with_session_same : with_session st (current_user st) (session_token st) = st.
Proof. now destruct st. Qed.

Lemma register_eq (c : user_class) (name email password : str)
      (args : list value) (salt : str) :
  register c name email password args salt st =
  match find_user name (users st) with
  | Some _ => (Ok (msg_already_exists name), st)
  | None =>
      match args with
      | [x] =>
          match hash_password salt password with
          | Ok digest =>
              (Ok (msg_registered name c),
               with_users st (users st ++ [instance c (mk_base name email digest) x]))
          | Raise e => (Raise e, st)
          end
      | _ => (Raise TypeError, st)
      end
  end.
Proof.
  unfold register, bind, get_users.
  destruct (find_user name (users st)); [reflexivity|].
  unfold construct.
  destruct args as [|x [|y r]]; try reflexivity.
  unfold bind, lift, get_users, set_users, ret, with_users.
  destruct (hash_password salt password); [|reflexivity].
  now destruct c.
Qed.

Lemma login_eq (name password token : str) :
  login name password token st =
  match find_user name (users st) with
  | Some user =>
      match check_password (password_hashed user) password with
      | Ok true => (Ok (msg_logged_in (username user) token),
                    with_session st (Some user) (Some token))
      | Ok false => (Ok msg_wrong_password, st)
      | Raise e => (Raise e, st)
      end
  | None => (Ok (msg_user_not_found name), st)
  end.
Proof.
  unfold login, bind, get_users, lift.
  destruct (find_user name (users st)) as [user|]; [|reflexivity].
  destruct (check_password (password_hashed user) password) as [[|]|]; reflexivity.
Qed.

Lemma logout_eq :
  logout st =
  match current_user st with
  | None => (Ok msg_nobody_to_log_out, st)
  | Some u => (Ok (msg_logged_out (username u)), with_session st None None)
  end.
Proof.
  unfold logout, bind, get_current.
  destruct (current_user st); reflexivity.
Qed.

Lemma get_current_user_eq :
  get_current_user st =
  match current_user st with
  | None => (Ok msg_nobody, st)
  | Some u => (Ok (msg_current u), st)
  end.
Proof.
  unfold get_current_user, bind, get_current.
  destruct (current_user st); reflexivity.
Qed.

Lemma delete_user_eq (name : str) :
  delete_user name st =
  match find_user name (users st) with
  | Some _ => (Ok true, with_output (with_users st (drop_user name (users st)))
                                    [msg_deleted name])
  | None => (Ok false, with_output st [msg_not_deleted name])
  end.
Proof.
  unfold delete_user, bind, get_users.
  destruct (find_user name (users st)) as [u|] eqn:F; [|reflexivity].
  unfold lift; now rewrite (list_remove_found _ _ _ F).
Qed.
End Methods.

Lemma print_all_eq (l : list user) (st : state) :
  print_all l st =
  (Ok tt, with_output st (List.map (fun u => lit "- " ++ get_details u) l)).
Proof.
  revert st; induction l as [|u l IH]; intros st.
  - unfold with_output; simpl; rewrite app_nil_r; now destruct st.
  - cbn [print_all List.map]; unfold bind at 1; unfold print at 1.
    rewrite IH; unfold with_output; cbn [users stdout current_user session_token].
    now rewrite <- app_assoc.
Qed.

Lemma list_users_eq (st : state) :
  list_users st = (Ok tt, with_output st (listing (users st))).
Proof.
  unfold list_users, bind, get_users.
  destruct (users st) as [|u l] eqn:E; [reflexivity|].
  unfold print at 1; rewrite print_all_eq.
  unfold with_output, listing; cbn [users stdout current_user session_token].
  now rewrite <- app_assoc, E.
Qed.

(* ================================================================== *)
(** ** Test vectors of the hash *)
(* ================================================================== *)

Example sha256_abc :
  option_map SHA256.hexdigest
    (match encode_utf8 (lit "abc") with Ok b => Some b | Raise _ => None end)
  = Some (lit "ba7816bf8f01cfea414140de5dae2223b00361a396177a9cb410ff61f20015ad").
Proof. vm_compute; reflexivity. Qed.

Example sha256_empty :
  SHA256.hexdigest []
  = lit "e3b0c44298fc1c149afbf4c8996fb92427ae41e4649b934ca495991b7852b855".
Proof. vm_compute; reflexivity. Qed.

(** Two blocks. *)
Example sha256_two_blocks :
  SHA256.hexdigest (repeat (byte_of_N 0x61) 70)
  = lit "6bd5e5034855a11241f0dee8fc72850ffd9955b28347a86428b5fa19119f6ad0".
Proof. vm_compute; reflexivity. Qed.

(** [encode] on one, two, three and four bytes, and on a surrogate. *)
Example encode_utf8_samples :
  encode_utf8 (lit "aЖ€😀")
  = Ok (List.map byte_of_N [0x61; 0xD0; 0x96; 0xE2; 0x82; 0xAC; 0xF0; 0x9F; 0x98; 0x80]%N)
  /\ lit "aЖ€😀" = [0x61; 0x416; 0x20AC; 0x1F600]%N
  /\ encode_utf8 [0xD800%N] = Raise UnicodeEncodeError.
Proof. vm_compute; repeat split; reflexivity. Qed.

(* ================================================================== *)
(** ** The script of the module *)
(* ================================================================== *)

Example registered_users :
  users Demo.registered = [Demo.mikhail_user; Demo.root_user].
Proof. vm_compute; reflexivity. Qed.

Example script_output :
  stdout (run Demo.script init) =
  [ lit "Список пользователей:";
    lit "- Клиент: mikhail, Email: mikhail@example.com, Адрес: Moscow, Red Square";
    lit "- Админ: root, Email: admin@example.com, Уровень доступа: 10";
    lit "Пользователь mikhail удалён.";
    lit "Список пользователей:";
    lit "- Админ: root, Email: admin@example.com, Уровень доступа: 10" ]
  /\ users (run Demo.script init) = [Demo.root_user]
  /\ anonymous (run Demo.script init) = true.
Proof. vm_compute; repeat split; reflexivity. Qed.

Example script_sessions :
  authenticated Demo.customer_session = true
  /\ session_is_admin Demo.customer_session = false
  /\ authenticated Demo.admin_session = true
  /\ session_is_admin Demo.admin_session = true
  /\ current_user Demo.admin_session = Some Demo.root_user
  /\ session_token Demo.admin_session = Some Demo.token.
Proof. vm_compute; repeat split; reflexivity. Qed.

Example script_logins :
  fst (login Demo.mikhail (lit "pass12") Demo.token Demo.registered)
  = Ok (lit "Ошибка: неверный пароль.")
  /\ fst (login Demo.mikhail (lit "pass123") Demo.token Demo.registered)
     = Ok (lit "Успешный вход. Текущий пользователь: mikhail, токен сессии: "
           ++ Demo.token)
  /\ fst (login (lit "nobody") (lit "pass123") Demo.token Demo.registered)
     = Ok (lit "Ошибка: пользователь nobody не найден.").
Proof. vm_compute; repeat split; reflexivity. Qed.

(* ================================================================== *)
(** ** Administrative operations *)
(* ================================================================== *)

Lemma find_user_unique (l : list user) (u : user) :
  NoDup (List.map username l) -> In u l -> find_user (username u) l = Some u.
Proof.
  unfold find_user; induction l as [|y l IH]; simpl; [intros _ []|].
  intros H Hin; inversion H as [|? ? Hy Hl]; subst.
  destruct Hin as [->|Hin].
  - now rewrite str_eqb_refl.
  - destruct (str_eqb (username y) (username u)) eqn:E; [|auto].
    apply str_eqb_eq in E; exfalso; apply Hy; rewrite E; now apply in_map.
Qed.

(** C1, as the code has it.  [list_users] and [delete_user] are static
    methods of [Admin]: they read no session and test no capability.
    Whatever the current principal and token are (an administrator, a
    customer, nobody), [list_users] writes the listing of the registry and
    [delete_user] drops the first principal with the username and answers
    [True], or answers [False] with the registry as it was when nobody has
    that username; neither raises, and the session is left as it was. *)
Theorem admin_operations_ignore_session
        (l : list user) (out : list str) (cur : option user) (tok : option str)
        (name : str) :
  list_users (mk_state l out cur tok)
  = (Ok tt, mk_state l (out ++ listing l) cur tok)
  /\ delete_user name (mk_state l out cur tok)
     = match find_user name l with
       | Some _ => (Ok true, mk_state (drop_user name l)
                                      (out ++ [msg_deleted name]) cur tok)
       | None => (Ok false, mk_state l (out ++ [msg_not_deleted name]) cur tok)
       end.
Proof.
  split.
  - now rewrite list_users_eq.
  - rewrite delete_user_eq; cbn [users].
    destruct (find_user name l); reflexivity.
Qed.

(** C1 fails as stated: with the customer logged in, [delete_user] removes
    the administrator and answers [True], and [list_users] writes the
    listing; nothing is refused. *)
Lemma admin_operations_not_refused :
  session_is_admin Demo.customer_session = false
  /\ users Demo.customer_session = [Demo.mikhail_user; Demo.root_user]
  /\ fst (delete_user Demo.root Demo.customer_session) = Ok true
  /\ users (snd (delete_user Demo.root Demo.customer_session)) = [Demo.mikhail_user]
  /\ fst (list_users Demo.customer_session) = Ok tt
  /\ stdout (snd (list_users Demo.customer_session))
     = listing [Demo.mikhail_user; Demo.root_user].
Proof. vm_compute; repeat split; reflexivity. Qed.

(** C2, as the code has it.  When the administrator logged in is
    registered (usernames being distinct) and deletes their own username,
    [delete_user] answers [True] and the registry loses that principal,
    but the session is not touched: the current principal and the token
    stay as they were, and the current principal is no longer registered. *)
Theorem delete_own_username_keeps_session (st : state) (a : user) :
  current_user st = Some a ->
  is_admin a = true ->
  In a (users st) ->
  NoDup (List.map username (users st)) ->
  exists st',
    delete_user (username a) st = (Ok true, st')
    /\ users st' = drop_user (username a) (users st)
    /\ ~ In a (users st')
    /\ current_user st' = Some a
    /\ session_token st' = session_token st.
Proof.
  intros Hcur _ Hin Hnd.
  rewrite delete_user_eq, (find_user_unique _ _ Hnd Hin).
  eexists; split; [reflexivity|].
  cbn [with_output with_users users current_user session_token].
  repeat split; [|assumption].
  intros Hin'; apply (drop_user_gone (username a) _ Hnd).
  now apply in_map.
Qed.

(** The administrator of the script deletes [root]. *)
Lemma delete_own_username_keeps_session_witness :
  exists st',
    delete_user (username Demo.root_user) Demo.admin_session = (Ok true, st')
    /\ users st' = drop_user (username Demo.root_user) (users Demo.admin_session)
    /\ ~ In Demo.root_user (users st')
    /\ current_user st' = Some Demo.root_user
    /\ session_token st' = session_token Demo.admin_session.
Proof.
  apply (delete_own_username_keeps_session Demo.admin_session Demo.root_user).
  - vm_compute; reflexivity.
  - reflexivity.
  - replace (users Demo.admin_session)
      with [Demo.mikhail_user; Demo.root_user] by (vm_compute; reflexivity).
    right; left; reflexivity.
  - replace (List.map username (users Demo.admin_session))
      with [Demo.mikhail; Demo.root] by (vm_compute; reflexivity).
    repeat constructor; simpl; intros H; decompose [or] H;
      try discriminate; contradiction.
Defined.

(** C2 fails as stated: the administrator deletes their own username, the
    registry loses them, and the session still holds them and the token. *)
Lemma delete_own_username_no_logout :
  session_is_admin Demo.admin_session = true
  /\ current_user Demo.admin_session = Some Demo.root_user
  /\ fst (delete_user Demo.root Demo.admin_session) = Ok true
  /\ users (snd (delete_user Demo.root Demo.admin_session)) = [Demo.mikhail_user]
  /\ current_user (snd (delete_user Demo.root Demo.admin_session))
     = Some Demo.root_user
  /\ session_token (snd (delete_user Demo.root Demo.admin_session))
     = Some Demo.token
  /\ anonymous (snd (delete_user Demo.root Demo.admin_session)) = false.
Proof. vm_compute; repeat split; reflexivity. Qed.

(* ================================================================== *)
(** ** Hashing and verification *)
(* ================================================================== *)

(** A digest just written verifies against the password it was written for. *)
Lemma check_password_fresh (salt password : str) (data : bytes) :
  ~ In dollar salt ->
  encode_utf8 (salt ++ password) = Ok data ->
  check_password (salt ++ dollar :: SHA256.hexdigest data) password = Ok true.
Proof.
  intros Hs E.
  now rewrite (check_password_parts _ _ _ Hs), E, str_eqb_refl.
Qed.

(** The two outcomes of [hash_password] under a salt [uuid4().hex] may
    return: a digest, which verifies against the password, or
    [UnicodeEncodeError], raised exactly for the passwords the UTF-8 codec
    refuses. *)
Lemma hash_password_outcomes (salt password : str) :
  is_uuid4_hex salt = true ->
  match hash_password salt password with
  | Ok digest => check_password digest password = Ok true
  | Raise e => e = UnicodeEncodeError /\ encodable password = false
  end.
Proof.
  intros Hsalt; apply uuid4_hex_is_hex in Hsalt.
  rewrite hash_password_spec.
  destruct (encode_utf8 (salt ++ password)) as [data|e] eqn:E.
  - exact (check_password_fresh _ _ _ (hex_digit_not_dollar _ Hsalt) E).
  - apply encode_utf8_raise in E as [-> E]; split; [reflexivity|].
    rewrite encodable_app, (hex_digit_encodable _ Hsalt) in E; exact E.
Qed.

(** The digest exists whenever the password can be encoded. *)
Lemma hash_password_answers (salt password : str) :
  is_uuid4_hex salt = true -> encodable password = true ->
  exists digest, hash_password salt password = Ok digest
                 /\ check_password digest password = Ok true.
Proof.
  intros Hsalt Hp; apply uuid4_hex_is_hex in Hsalt.
  rewrite hash_password_spec.
  assert (Hx : encodable (salt ++ password) = true)
    by now rewrite encodable_app, (hex_digit_encodable _ Hsalt), Hp.
  destruct (encode_utf8_ok _ Hx) as [data E]; rewrite E.
  eexists; split; [reflexivity|].
  exact (check_password_fresh _ _ _ (hex_digit_not_dollar _ Hsalt) E).
Qed.

(** C3, as the code has it.  For every password the UTF-8 codec encodes
    and every salt [uuid4().hex] may return, [hash_password] returns a
    digest and [check_password] of that digest and the same password
    returns [True]. *)
Theorem check_password_hash_password_encodable (salt password : str) :
  is_uuid4_hex salt = true ->
  encodable password = true ->
  exists digest,
    hash_password salt password = Ok digest
    /\ check_password digest password = Ok true.
Proof.
  intros Hsalt Hp.
  destruct (hash_password_answers salt password Hsalt Hp) as (digest & Hh & Hc).
  exists digest; split; assumption.
Qed.

(** The first registration of the script. *)
Lemma check_password_hash_password_encodable_witness :
  exists digest,
    hash_password Demo.salt_mikhail (lit "pass123") = Ok digest
    /\ check_password digest (lit "pass123") = Ok true.
Proof.
  apply (check_password_hash_password_encodable Demo.salt_mikhail (lit "pass123")).
  - vm_compute; reflexivity.
  - vm_compute; reflexivity.
Defined.

(** C3 fails as stated: a password made of a lone surrogate is a [str],
    the salt is one [uuid4().hex] may return, and [hash_password] raises
    [UnicodeEncodeError]; there is no digest, and nothing verifies. *)
Lemma hash_password_raises_on_surrogate :
  is_uuid4_hex Demo.salt_mikhail = true
  /\ hash_password Demo.salt_mikhail [0xDC80%N] = Raise UnicodeEncodeError
  /\ ~ (exists digest,
          hash_password Demo.salt_mikhail [0xDC80%N] = Ok digest
          /\ check_password digest [0xDC80%N] = Ok true).
Proof.
  split; [vm_compute; reflexivity|]; split; [vm_compute; reflexivity|].
  intros (digest & H & _); vm_compute in H; discriminate H.
Qed.

(** C5 at the inputs where it breaks.  The handler of [check_password]
    covers the [split] line only; the encoding of [salt + provided_password]
    is outside it.  A stored string with a delimiter whose first field holds
    a lone surrogate, and a candidate with a lone surrogate against a digest
    written by [hash_password], both make [check_password] raise
    [UnicodeEncodeError] instead of answering [False]. *)
Theorem check_password_raises :
  check_password (0xD800%N :: lit "$abc") (lit "pass123")
  = Raise UnicodeEncodeError
  /\ check_password (Demo.digest_of Demo.salt_mikhail (lit "pass123")) [0xDC80%N]
     = Raise UnicodeEncodeError.
Proof. vm_compute; split; reflexivity. Qed.

(* ================================================================== *)
(** ** Registration and login *)
(* ================================================================== *)

(** The two answers of [register] cannot be mistaken for one another. *)
Lemma msg_already_exists_not_registered (name name' : str) (c : user_class) :
  msg_already_exists name <> msg_registered name' c.
Proof. unfold msg_already_exists, msg_registered; intros H; vm_compute in H; discriminate H. Qed.

(** C4.  When the registry already holds a principal with the username,
    [register] answers the "already exists" error for any class, email,
    password, extra arguments and salt, and the state is exactly the one
    before the call: the registry (contents, order, length), the output and
    the session. *)
Theorem register_existing_username
        (st : state) (c : user_class) (name email password : str)
        (args : list value) (salt : str) :
  (exists u, In u (users st) /\ username u = name) ->
  register c name email password args salt st = (Ok (msg_already_exists name), st).
Proof.
  intros H; apply find_user_in in H as [v F].
  now rewrite register_eq, F.
Qed.

(** The third registration of the script. *)
Lemma register_existing_username_witness :
  register Customer Demo.mikhail (lit "other@example.com") (lit "qwerty")
           [VStr (lit "Somewhere")] Demo.salt_mikhail Demo.registered
  = (Ok (msg_already_exists Demo.mikhail), Demo.registered).
Proof.
  apply register_existing_username.
  exists Demo.mikhail_user; split; [|reflexivity].
  replace (users Demo.registered)
    with [Demo.mikhail_user; Demo.root_user] by (vm_compute; reflexivity).
  left; reflexivity.
Defined.

(** C6.  When the username is registered and the password does not verify
    against the digest stored for it, [login] answers the "wrong password"
    error and the state is exactly the one before the call: the current
    principal and the token in particular. *)
Theorem login_wrong_password
        (st : state) (name password token : str) (u : user) :
  find_user name (users st) = Some u ->
  check_password (password_hashed u) password = Ok false ->
  login name password token st = (Ok msg_wrong_password, st).
Proof.
  intros F C; now rewrite login_eq, F, C.
Qed.

(** A wrong password for [mikhail] while the administrator is logged in. *)
Lemma login_wrong_password_witness :
  login Demo.mikhail (lit "pass12") Demo.token Demo.admin_session
  = (Ok msg_wrong_password, Demo.admin_session).
Proof.
  apply (login_wrong_password Demo.admin_session Demo.mikhail (lit "pass12")
                              Demo.token Demo.mikhail_user).
  - vm_compute; reflexivity.
  - vm_compute; reflexivity.
Defined.


(** C10.  [login] never touches the registry, whether it answers success,
    an error, or raises: the list [User.users] after the call is the list
    before it, and so is the output; only the two session attributes can
    differ. *)
Theorem login_preserves_registry (st : state) (name password token : str) :
  users (snd (login name password token st)) = users st
  /\ stdout (snd (login name password token st)) = stdout st.
Proof.
  rewrite login_eq.
  destruct (find_user name (users st)) as [u|]; [|auto].
  destruct (check_password (password_hashed u) password) as [[|]|]; auto.
Qed.

(* ================================================================== *)
(** ** The session *)
(* ================================================================== *)

Lemma session_shape_step (c : call) (st : state) :
  session_shape st -> session_shape (step c st).
Proof.
  unfold session_shape; intros H.
  destruct c as [cl n e p a s | n p t | | | | n]; cbn [step].
  - rewrite register_eq.
    destruct (find_user n (users st)); [exact H|].
    destruct a as [|x [|y r]]; try exact H.
    destruct (hash_password s p); exact H.
  - rewrite login_eq.
    destruct (find_user n (users st)) as [u|]; [|exact H].
    destruct (check_password (password_hashed u) p) as [[|]|]; try exact H.
    reflexivity.
  - rewrite logout_eq.
    destruct (current_user st); [reflexivity | exact H].
  - rewrite get_current_user_eq.
    destruct (current_user st); exact H.
  - rewrite list_users_eq; exact H.
  - rewrite delete_user_eq.
    destruct (find_user n (users st)); exact H.
Qed.

Lemma run_invariant (P : state -> Prop) :
  (forall c st, P st -> P (step c st)) ->
  forall cs st, P st -> P (run cs st).
Proof.
  intros Hstep cs; unfold run.
  induction cs as [|c cs IH]; intros st H; simpl; [exact H|].
  apply IH, Hstep, H.
Qed.

(** C7.  The service starts anonymous, and after any sequence of calls
    ([register], [login], [logout], [get_current_user], and the two
    administrative methods as well) the session is in exactly one of the
    two shapes: no principal and no token, or a principal and a token. *)
Theorem session_is_anonymous_or_authenticated (cs : list call) :
  anonymous init = true
  /\ xorb (anonymous (run cs init)) (authenticated (run cs init)) = true
  /\ (current_user (run cs init) = None <-> session_token (run cs init) = None).
Proof.
  assert (S : session_shape (run cs init))
    by (apply run_invariant; [apply session_shape_step | reflexivity]).
  split; [reflexivity|]; split; [exact S|].
  unfold session_shape, anonymous, authenticated in S.
  destruct (current_user (run cs init)), (session_token (run cs init));
    try discriminate; split; auto; discriminate.
Qed.




(* ================================================================== *)
(** ** The registry *)
(* ================================================================== *)

Lemma registry_ok_drop (name : str) (l : list user) :
  registry_ok l -> registry_ok (drop_user name l).
Proof.
  intros [Hn Hd]; split; [now apply drop_user_nodup|].
  rewrite Forall_forall in *; intros u Hu; apply Hd.
  now apply drop_user_incl in Hu.
Qed.

Lemma registry_ok_append (c : user_class) (name email digest : str) (x : value)
      (l : list user) :
  registry_ok l -> find_user name l = None -> digest <> [] ->
  registry_ok (l ++ [instance c (mk_base name email digest) x]).
Proof.
  intros [Hn Hd] F Hne.
  assert (Eu : username (instance c (mk_base name email digest) x) = name)
    by now destruct c.
  assert (Ep : password_hashed (instance c (mk_base name email digest) x) = digest)
    by now destruct c.
  split.
  - rewrite map_app; cbn [List.map]; rewrite Eu.
    apply NoDup_app; [assumption | repeat constructor; intros [] |].
    intros n Hin [<-|[]]; now apply find_user_none in F.
  - apply Forall_app; split; [assumption|].
    constructor; [now rewrite Ep | constructor].
Qed.

Lemma registry_ok_step (c : call) (st : state) :
  registry_ok (users st) -> registry_ok (users (step c st)).
Proof.
  intros H.
  destruct c as [cl n e p a s | n p t | | | | n]; cbn [step].
  - rewrite register_eq.
    destruct (find_user n (users st)) eqn:F; [exact H|].
    destruct a as [|x [|y r]]; try exact H.
    destruct (hash_password s p) as [digest|] eqn:E; [|exact H].
    cbn [snd with_users users].
    apply registry_ok_append; [exact H | exact F |].
    exact (hash_password_nonempty _ _ _ E).
  - rewrite login_eq.
    destruct (find_user n (users st)) as [u|]; [|exact H].
    destruct (check_password (password_hashed u) p) as [[|]|]; exact H.
  - rewrite logout_eq; destruct (current_user st); exact H.
  - rewrite get_current_user_eq; destruct (current_user st); exact H.
  - rewrite list_users_eq; exact H.
  - rewrite delete_user_eq.
    destruct (find_user n (users st)); [|exact H].
    cbn [snd with_output with_users users]; now apply registry_ok_drop.
Qed.

(** C8.  After any sequence of calls from the start of the process (the
    principals being created by [register] and removed by [delete_user]
    alone), the usernames of the registry are pairwise distinct and no
    stored digest is the empty string. *)
Theorem registry_usernames_distinct_digests_nonempty (cs : list call) :
  NoDup (List.map username (users (run cs init)))
  /\ Forall (fun u => password_hashed u <> []) (users (run cs init)).
Proof.
  apply (run_invariant (fun st => registry_ok (users st))).
  - apply registry_ok_step.
  - split; constructor.
Qed.


(* ================================================================== *)
(** ** Further properties of [pro_users.py] *)
(* ================================================================== *)

Lemma find_user_app_new (name : str) (l : list user) (u : user) :
  find_user name l = None -> username u = name ->
  find_user name (l ++ [u]) = Some u.
Proof.
  unfold find_user; induction l as [|y l IH]; simpl; intros F E.
  - now rewrite E, str_eqb_refl.
  - destruct (str_eqb (username y) name); [discriminate | auto].
Qed.

Lemma instance_attributes (c : user_class) (b : user_base) (x : value) :
  base_of (instance c b x) = b /\ class_of (instance c b x) = c.
Proof. now destruct c. Qed.

(** X1.  Registration and login compose: when the username is free, one
    extra argument is given, the salt is a UUID and the password can be
    encoded, [register] answers success and appends one principal with the
    given username, email and class at the end of the registry; [login]
    with the same username and password then answers success and the
    session holds that principal and the token drawn. *)
Theorem register_then_login
        (st : state) (c : user_class) (name mail password : str) (x : value)
        (salt token : str) :
  ~ In name (List.map username (users st)) ->
  is_uuid4_hex salt = true ->
  encodable password = true ->
  exists u st1,
    register c name mail password [x] salt st = (Ok (msg_registered name c), st1)
    /\ users st1 = users st ++ [u]
    /\ username u = name /\ email u = mail /\ class_of u = c
    /\ login name password token st1
       = (Ok (msg_logged_in name token), with_session st1 (Some u) (Some token)).
Proof.
  intros Hfree Hsalt Hp; apply find_user_none in Hfree.
  destruct (hash_password_answers salt password Hsalt Hp) as (digest & Hh & Hc).
  destruct (instance_attributes c (mk_base name mail digest) x) as [Eb Ec].
  set (u := instance c (mk_base name mail digest) x) in *.
  assert (Eu : username u = name) by (unfold username; now rewrite Eb).
  exists u, (with_users st (users st ++ [u])).
  rewrite register_eq, Hfree, Hh.
  split; [reflexivity|]; split; [reflexivity|]; split; [exact Eu|].
  split; [unfold email; now rewrite Eb|]; split; [exact Ec|].
  rewrite login_eq; cbn [with_users users].
  rewrite (find_user_app_new _ _ _ Hfree Eu).
  unfold password_hashed; rewrite Eb; cbn [base_password_hashed].
  now rewrite Hc, Eu.
Qed.

(** A new customer registers and logs in after the script's registrations. *)
Lemma register_then_login_witness :
  exists u st1,
    register Customer (lit "anna") (lit "anna@example.com") (lit "s3cret")
             [VStr (lit "Kazan")] Demo.salt_root Demo.registered
    = (Ok (msg_registered (lit "anna") Customer), st1)
    /\ users st1 = users Demo.registered ++ [u]
    /\ username u = lit "anna" /\ email u = lit "anna@example.com"
    /\ class_of u = Customer
    /\ login (lit "anna") (lit "s3cret") Demo.token st1
       = (Ok (msg_logged_in (lit "anna") Demo.token),
          with_session st1 (Some u) (Some Demo.token)).
Proof.
  apply register_then_login.
  - replace (List.map username (users Demo.registered))
      with [Demo.mikhail; Demo.root] by (vm_compute; reflexivity).
    simpl; intros H; decompose [or] H; try discriminate; contradiction.
  - vm_compute; reflexivity.
  - vm_compute; reflexivity.
Defined.

(** X2.  [register] never removes, replaces or reorders a principal and
    never touches the output or the session: after the call the registry
    is the one before, or the one before followed by one principal with
    the username asked for. *)
Theorem register_keeps_existing
        (st : state) (c : user_class) (name mail password : str)
        (args : list value) (salt : str) :
  (users (snd (register c name mail password args salt st)) = users st
   \/ exists u, users (snd (register c name mail password args salt st))
                = users st ++ [u] /\ username u = name)
  /\ stdout (snd (register c name mail password args salt st)) = stdout st
  /\ current_user (snd (register c name mail password args salt st))
     = current_user st
  /\ session_token (snd (register c name mail password args salt st))
     = session_token st.
Proof.
  rewrite register_eq.
  destruct (find_user name (users st)); [auto|].
  destruct args as [|x [|y r]]; [auto| |auto].
  destruct (hash_password salt password) as [digest|]; [|auto].
  split; [|auto]; right; eexists; split; [reflexivity|].
  unfold username; now rewrite (proj1 (instance_attributes _ _ _)).
Qed.

(** X3.  When [register] raises, nothing was registered: the state is the
    one before the call and the username was free.  The exception is
    [TypeError] when the number of extra arguments is not one, and
    [UnicodeEncodeError] when it is one and salt and password cannot be
    encoded. *)
Theorem register_raises_unchanged
        (st st' : state) (c : user_class) (name mail password : str)
        (args : list value) (salt : str) (e : exn) :
  register c name mail password args salt st = (Raise e, st') ->
  st' = st
  /\ ~ In name (List.map username (users st))
  /\ ((e = TypeError /\ List.length args <> 1%nat)
      \/ (e = UnicodeEncodeError /\ List.length args = 1%nat
          /\ encodable (salt ++ password) = false)).
Proof.
  rewrite register_eq.
  destruct (find_user name (users st)) eqn:F; [discriminate|].
  apply find_user_none in F.
  destruct args as [|x [|y r]].
  - intros H; injection H as <- <-; repeat split; auto; left; split; auto; discriminate.
  - rewrite hash_password_spec.
    destruct (encode_utf8 (salt ++ password)) as [data|e'] eqn:E; [discriminate|].
    intros H; injection H as -> <-.
    apply encode_utf8_raise in E as [-> E]; auto 6.
  - intros H; injection H as <- <-; repeat split; auto; left; split; auto; discriminate.
Qed.

(** [Admin("boss", ...)] without an access level. *)
Lemma register_raises_unchanged_witness :
  Demo.registered = Demo.registered
  /\ ~ In (lit "boss") (List.map username (users Demo.registered))
  /\ ((TypeError = TypeError /\ List.length (@nil value) <> 1%nat)
      \/ (TypeError = UnicodeEncodeError /\ List.length (@nil value) = 1%nat
          /\ encodable (Demo.salt_root ++ lit "pw") = false)).
Proof.
  apply (register_raises_unchanged Demo.registered Demo.registered Admin
           (lit "boss") (lit "boss@example.com") (lit "pw") [] Demo.salt_root).
  vm_compute; reflexivity.
Defined.

Lemma Ok_inj {A : Type} (a b : A) : Ok a = Ok b -> a = b.
Proof. intros H; now injection H. Qed.


(** X5.  [delete_user] removes one principal, the first with the username,
    and nothing else: the principals before it (none of them has the
    username) and after it keep their order, also when a later principal
    has the same username. *)
Theorem delete_user_removes_first_match (st : state) (name : str) (u : user) :
  find_user name (users st) = Some u ->
  exists before after,
    users st = before ++ u :: after
    /\ (forall v, In v before -> username v <> name)
    /\ username u = name
    /\ delete_user name st
       = (Ok true, with_output (with_users st (before ++ after)) [msg_deleted name]).
Proof.
  intros F; rewrite delete_user_eq, F.
  assert (H : exists before after,
             users st = before ++ u :: after
             /\ (forall v, In v before -> username v <> name)
             /\ drop_user name (users st) = before ++ after).
  { revert F; unfold find_user; induction (users st) as [|y l IH]; simpl; [discriminate|].
    destruct (str_eqb (username y) name) eqn:E.
    - intros H; injection H as ->; exists [], l; repeat split; intros v [].
    - intros H; destruct (IH H) as (b & a & -> & Hb & Hd).
      exists (y :: b), a; repeat split.
      + intros v [<-|Hv]; [now apply str_eqb_neq | auto].
      + simpl; now rewrite Hd. }
  destruct H as (before & after & E & Hb & Hd).
  exists before, after; rewrite Hd; repeat split; auto.
  exact (proj2 (find_user_some _ _ _ F)).
Qed.

(** [mikhail] is the first of the two principals of the script. *)
Lemma delete_user_removes_first_match_witness :
  exists before after,
    users Demo.registered = before ++ Demo.mikhail_user :: after
    /\ (forall v, In v before -> username v <> Demo.mikhail)
    /\ username Demo.mikhail_user = Demo.mikhail
    /\ delete_user Demo.mikhail Demo.registered
       = (Ok true, with_output (with_users Demo.registered (before ++ after))
                               [msg_deleted Demo.mikhail]).
Proof.
  apply (delete_user_removes_first_match Demo.registered Demo.mikhail
                                         Demo.mikhail_user).
  vm_compute; reflexivity.
Defined.

(** X6.  With distinct usernames, a username deleted is unknown from then
    on: a second [delete_user] answers [False] and leaves the registry as
    it is, and [login] with that username answers "not found" whatever
    the password. *)
Theorem deleted_username_is_unknown
        (st : state) (name password token : str) :
  NoDup (List.map username (users st)) ->
  fst (delete_user name (snd (delete_user name st))) = Ok false
  /\ users (snd (delete_user name (snd (delete_user name st))))
     = users (snd (delete_user name st))
  /\ login name password token (snd (delete_user name st))
     = (Ok (msg_user_not_found name), snd (delete_user name st)).
Proof.
  intros Hnd.
  assert (F : find_user name (users (snd (delete_user name st))) = None).
  { rewrite delete_user_eq.
    destruct (find_user name (users st)) eqn:F; cbn [snd with_output with_users users].
    - apply find_user_none; now apply drop_user_gone.
    - exact F. }
  rewrite login_eq, (delete_user_eq (snd (delete_user name st))), F.
  repeat split.
Qed.

(** The administrator of the script deletes [mikhail]. *)
Lemma deleted_username_is_unknown_witness :
  fst (delete_user Demo.mikhail (snd (delete_user Demo.mikhail Demo.admin_session)))
  = Ok false
  /\ users (snd (delete_user Demo.mikhail
                   (snd (delete_user Demo.mikhail Demo.admin_session))))
     = users (snd (delete_user Demo.mikhail Demo.admin_session))
  /\ login Demo.mikhail (lit "pass123") Demo.token
           (snd (delete_user Demo.mikhail Demo.admin_session))
     = (Ok (msg_user_not_found Demo.mikhail),
        snd (delete_user Demo.mikhail Demo.admin_session)).
Proof.
  apply deleted_username_is_unknown.
  replace (List.map username (users Demo.admin_session))
    with [Demo.mikhail; Demo.root] by (vm_compute; reflexivity).
  repeat constructor; simpl; intros H; decompose [or] H;
    try discriminate; contradiction.
Defined.

(** X7.  The description tells the class: a customer and an administrator
    never have the same description, and neither has the description
    [User.get_details] gives, whatever their attributes. *)
Theorem get_details_tells_the_class (u v : user) (b : user_base) :
  (class_of u <> class_of v -> get_details u <> get_details v)
  /\ get_details u <> Cart.User_get_details b.
Proof.
  split.
  - destruct u as [bu xu|bu xu], v as [bv xv|bv xv]; cbn [class_of];
      intros Hc H; try congruence;
      unfold get_details in H; vm_compute in H; discriminate H.
  - destruct u as [bu xu|bu xu]; intros H;
      unfold get_details, Cart.User_get_details in H;
      vm_compute in H; discriminate H.
Qed.

Lemma current_messages_differ (u : user) : msg_current u <> msg_nobody.
Proof.
  unfold msg_current, msg_nobody; intros H; vm_compute in H; discriminate H.
Qed.

(** X8.  [get_current_user] only reads: the state is left as it is.  It
    answers that nobody is logged in exactly when there is no current
    principal, and otherwise with the description of the current
    principal's class. *)
Theorem get_current_user_reads_session (st : state) :
  snd (get_current_user st) = st
  /\ (fst (get_current_user st) = Ok msg_nobody <-> current_user st = None)
  /\ (forall u, current_user st = Some u ->
        fst (get_current_user st) = Ok (lit "Сейчас в системе: " ++ get_details u)).
Proof.
  rewrite get_current_user_eq.
  destruct (current_user st) as [u|].
  - split; [reflexivity|]; split; [split|].
    + cbn [fst]; intros H; exfalso.
      exact (current_messages_differ u (Ok_inj _ _ H)).
    + discriminate.
    + intros v H; now injection H as <-.
  - split; [reflexivity|]; split; [split; reflexivity | discriminate].
Qed.

(** X9.  On strings the UTF-8 codec accepts [check_password] always
    answers a boolean, and it answers [True] only when the stored string
    is the salt, one delimiter and the hexadecimal SHA-256 of salt and
    candidate: a stored string without a delimiter, with a second
    delimiter, or with another second field is answered [False]. *)
Theorem check_password_on_encodable (stored provided : str) :
  encodable stored = true -> encodable provided = true ->
  exists b,
    check_password stored provided = Ok b
    /\ (b = true ->
        exists salt data,
          encode_utf8 (salt ++ provided) = Ok data
          /\ stored = salt ++ dollar :: SHA256.hexdigest data
          /\ ~ In dollar salt /\ ~ In dollar (SHA256.hexdigest data)).
Proof.
  intros Hs Hp.
  destruct (check_password_answers stored provided Hs Hp) as [b Hb].
  exists b; split; [exact Hb|].
  intros ->; apply check_password_true_iff in Hb as (salt & data & Hsalt & E & Hd).
  exists salt, data; repeat split; auto.
  apply hex_digit_not_dollar, hexdigest_is_hex.
Qed.

(** A digest of the script against another password. *)
Lemma check_password_on_encodable_witness :
  exists b,
    check_password (password_hashed Demo.mikhail_user) (lit "qwerty") = Ok b
    /\ (b = true ->
        exists salt data,
          encode_utf8 (salt ++ lit "qwerty") = Ok data
          /\ password_hashed Demo.mikhail_user
             = salt ++ dollar :: SHA256.hexdigest data
          /\ ~ In dollar salt /\ ~ In dollar (SHA256.hexdigest data)).
Proof.
  apply check_password_on_encodable; vm_compute; reflexivity.
Defined.

Lemma hash_password_parts (salt password digest : str) :
  is_uuid4_hex salt = true ->
  hash_password salt password = Ok digest ->
  List.length salt = 32%nat
  /\ exists h, digest = salt ++ dollar :: h
               /\ forallb is_hex_digit h = true /\ List.length h = 64%nat.
Proof.
  intros Hsalt Hh; split.
  - unfold is_uuid4_hex in Hsalt.
    repeat (apply andb_true_iff in Hsalt as [Hsalt _]).
    now apply Nat.eqb_eq.
  - exact (hash_password_shape _ _ _ Hsalt Hh).
Qed.

(** X10.  The stored format.  With the salt of a UUID, a digest is 97
    characters: the 32 of the salt, the delimiter, and 64 hexadecimal
    digits; the delimiter occurs once, so [split] gives the salt back. *)
Theorem hash_password_format (salt password digest : str) :
  is_uuid4_hex salt = true ->
  hash_password salt password = Ok digest ->
  List.length digest = 97%nat
  /\ firstn 32 digest = salt
  /\ nth 32 digest 0%N = dollar
  /\ forallb is_hex_digit (skipn 33 digest) = true
  /\ count_occ N.eq_dec digest dollar = 1%nat
  /\ split_max1 dollar digest = [salt; skipn 33 digest].
Proof.
  intros Hsalt Hh.
  destruct (hash_password_parts _ _ _ Hsalt Hh) as (Hl & h & -> & Hhex & Hlh).
  pose proof (hex_digit_not_dollar _ (uuid4_hex_is_hex _ Hsalt)) as Hns.
  pose proof (hex_digit_not_dollar _ Hhex) as Hnh.
  assert (Hskip : skipn 33 (salt ++ dollar :: h) = h).
  { change (dollar :: h) with ([dollar] ++ h); rewrite app_assoc.
    rewrite skipn_app.
    replace (List.length (salt ++ [dollar])) with 33%nat
      by (rewrite length_app, Hl; reflexivity).
    rewrite Nat.sub_diag, skipn_all2; [reflexivity|].
    rewrite length_app, Hl; simpl; lia. }
  rewrite Hskip.
  repeat split.
  - rewrite length_app; simpl; lia.
  - rewrite firstn_app, Hl, Nat.sub_diag, firstn_O, app_nil_r.
    rewrite <- Hl; apply firstn_all.
  - rewrite app_nth2, Hl; [reflexivity | lia].
  - exact Hhex.
  - rewrite count_occ_app; cbn [count_occ].
    destruct (N.eq_dec dollar dollar) as [_|N]; [|contradiction].
    rewrite (proj1 (count_occ_not_In N.eq_dec _ _) Hns).
    now rewrite (proj1 (count_occ_not_In N.eq_dec _ _) Hnh).
  - now apply split_max1_first.
Qed.

(** The first registration of the script. *)
Lemma hash_password_format_witness :
  List.length (Demo.digest_of Demo.salt_mikhail (lit "pass123")) = 97%nat
  /\ firstn 32 (Demo.digest_of Demo.salt_mikhail (lit "pass123")) = Demo.salt_mikhail
  /\ nth 32 (Demo.digest_of Demo.salt_mikhail (lit "pass123")) 0%N = dollar
  /\ forallb is_hex_digit
       (skipn 33 (Demo.digest_of Demo.salt_mikhail (lit "pass123"))) = true
  /\ count_occ N.eq_dec (Demo.digest_of Demo.salt_mikhail (lit "pass123")) dollar
     = 1%nat
  /\ split_max1 dollar (Demo.digest_of Demo.salt_mikhail (lit "pass123"))
     = [Demo.salt_mikhail;
        skipn 33 (Demo.digest_of Demo.salt_mikhail (lit "pass123"))].
Proof.
  apply (hash_password_format Demo.salt_mikhail (lit "pass123")).
  - vm_compute; reflexivity.
  - vm_compute; reflexivity.
Defined.

(** X11.  Two calls of [hash_password] that draw different salts give
    different digests, for the same password as for different ones. *)
Theorem hash_password_distinct_salts
        (salt1 salt2 password1 password2 digest1 digest2 : str) :
  is_uuid4_hex salt1 = true -> is_uuid4_hex salt2 = true ->
  salt1 <> salt2 ->
  hash_password salt1 password1 = Ok digest1 ->
  hash_password salt2 password2 = Ok digest2 ->
  digest1 <> digest2.
Proof.
  intros H1 H2 Hne E1 E2 Heq; apply Hne.
  destruct (hash_password_parts _ _ _ H1 E1) as (L1 & h1 & D1 & _).
  destruct (hash_password_parts _ _ _ H2 E2) as (L2 & h2 & D2 & _).
  assert (F : forall s h, List.length s = 32%nat -> firstn 32 (s ++ dollar :: h) = s).
  { intros s h L; rewrite firstn_app, L, Nat.sub_diag, firstn_O, app_nil_r.
    rewrite <- L; apply firstn_all. }
  rewrite <- (F salt1 h1 L1), <- (F salt2 h2 L2); congruence.
Qed.

(** The same password under the two salts of the script. *)
Lemma hash_password_distinct_salts_witness :
  Demo.digest_of Demo.salt_mikhail (lit "pass123")
  <> Demo.digest_of Demo.salt_root (lit "pass123").
Proof.
  apply (hash_password_distinct_salts Demo.salt_mikhail Demo.salt_root
           (lit "pass123") (lit "pass123")).
  - vm_compute; reflexivity.
  - vm_compute; reflexivity.
  - intros H; vm_compute in H; discriminate H.
  - vm_compute; reflexivity.
  - vm_compute; reflexivity.
Defined.

(* ================================================================== *)
(** ** The shopping cart *)
(* ================================================================== *)

Section CartFacts.
Import Cart.

Lemma py_sum_cons (x : Z) (xs : list Z) : py_sum (x :: xs) = (x + py_sum xs)%Z.
Proof.
  unfold py_sum; simpl.
  assert (G : forall l a b, fold_left Z.add l (a + b)%Z = (a + fold_left Z.add l b)%Z).
  { induction l as [|y l IH]; intros a b; simpl; [reflexivity|].
    now rewrite <- Z.add_assoc, IH. }
  now rewrite <- (G xs x 0%Z), Z.add_0_r.
Qed.

Lemma py_sum_app (xs ys : list Z) : py_sum (xs ++ ys) = (py_sum xs + py_sum ys)%Z.
Proof.
  induction xs as [|x xs IH]; [reflexivity|].
  simpl app; rewrite !py_sum_cons, IH; lia.
Qed.

Lemma py_sum_singleton (x : Z) : py_sum [x] = x.
Proof. unfold py_sum; cbn [fold_left]; apply Z.add_0_l. Qed.

Lemma cart_eq (c : cart) (l : list (product * Z)) :
  l = items c -> mk_cart (customer c) (registered_by c) l = c.
Proof. intros ->; now destruct c. Qed.
End CartFacts.

(** X12.  A new cart totals 0, and [add_item] raises the total by price
    times quantity, whatever the sign of the quantity and whether or not
    the product is in the cart already. *)
Theorem get_total_add_item (c : Cart.cart) (p : Cart.product) (quantity : Z)
        (a b : user) :
  Cart.get_total (Cart.new_cart a b) = 0%Z
  /\ Cart.get_total (Cart.add_item c p quantity)
     = (Cart.get_total c + Cart.product_price p * quantity)%Z.
Proof.
  split; [reflexivity|].
  unfold Cart.get_total, Cart.add_item; cbn [Cart.items].
  rewrite map_app, py_sum_app; cbn [List.map fst snd].
  now rewrite py_sum_singleton.
Qed.

(** X13.  [remove_item] on a cart built with [add_item]: nothing to remove
    from a new cart; an entry added last goes when its product has the
    name, and stays last otherwise.  So every entry with the name is
    removed, not only the first, the other entries keep their order, and
    removing the name again changes nothing. *)
Theorem remove_item_add_item (c : Cart.cart) (p : Cart.product) (quantity : Z)
        (name : str) (a b : user) :
  Cart.remove_item (Cart.new_cart a b) name = Cart.new_cart a b
  /\ Cart.remove_item (Cart.add_item c p quantity) name
     = (if str_eqb (Cart.product_name p) name
        then Cart.remove_item c name
        else Cart.add_item (Cart.remove_item c name) p quantity)
  /\ Cart.remove_item (Cart.remove_item c name) name = Cart.remove_item c name
  /\ (forall pq, In pq (Cart.items (Cart.remove_item c name))
                 <-> In pq (Cart.items c) /\ Cart.product_name (fst pq) <> name).
Proof.
  split; [reflexivity|]; split; [|split].
  - unfold Cart.remove_item, Cart.add_item; cbn [Cart.items Cart.customer Cart.registered_by].
    rewrite filter_app; cbn [filter fst].
    destruct (str_eqb (Cart.product_name p) name); cbn [negb];
      [now rewrite app_nil_r | reflexivity].
  - unfold Cart.remove_item; cbn [Cart.items Cart.customer Cart.registered_by].
    f_equal.
    induction (Cart.items c) as [|x l IH]; [reflexivity|].
    cbn [filter].
    destruct (negb (str_eqb (Cart.product_name (fst x)) name)) eqn:E;
      [cbn [filter]; now rewrite E, IH | exact IH].
  - intros pq; unfold Cart.remove_item; cbn [Cart.items].
    rewrite filter_In, negb_true_iff, str_eqb_neq; reflexivity.
Qed.

(** X14.  The total splits over a product name: the total of a cart is the
    total left after [remove_item] plus the total of the entries removed. *)
Theorem get_total_remove_item (c : Cart.cart) (name : str) :
  Cart.get_total c
  = (Cart.get_total (Cart.remove_item c name)
     + Cart.py_sum (List.map (fun pq => Cart.product_price (fst pq) * snd pq)
                             (filter (Cart.named name) (Cart.items c))))%Z.
Proof.
  unfold Cart.get_total, Cart.remove_item, Cart.named; cbn [Cart.items].
  induction (Cart.items c) as [|x l IH]; [reflexivity|].
  cbn [filter List.map].
  destruct (str_eqb (Cart.product_name (fst x)) name); cbn [negb List.map];
    rewrite !py_sum_cons, IH; lia.
Qed.

(** X15.  Adding a product whose name no entry has and removing that name
    gives the cart back. *)
Theorem add_item_then_remove_item (c : Cart.cart) (p : Cart.product) (quantity : Z) :
  (forall pq, In pq (Cart.items c) ->
              Cart.product_name (fst pq) <> Cart.product_name p) ->
  Cart.remove_item (Cart.add_item c p quantity) (Cart.product_name p) = c.
Proof.
  intros H.
  unfold Cart.remove_item, Cart.add_item; cbn [Cart.items Cart.customer Cart.registered_by].
  apply cart_eq.
  rewrite filter_app; cbn [filter fst]; rewrite str_eqb_refl; cbn [negb].
  rewrite app_nil_r.
  induction (Cart.items c) as [|x l IH]; [reflexivity|].
  cbn [filter].
  rewrite (proj2 (str_eqb_neq _ _) (H x (or_introl eq_refl))); cbn [negb].
  f_equal; apply IH; intros pq Hin; apply H; now right.
Qed.

(** A mouse added to a cart of laptops, and removed. *)
Lemma add_item_then_remove_item_witness :
  Cart.remove_item
    (Cart.add_item (Cart.remove_item Cart.demo_cart (lit "Mouse")) Cart.mouse 5)
    (Cart.product_name Cart.mouse)
  = Cart.remove_item Cart.demo_cart (lit "Mouse").
Proof.
  apply add_item_then_remove_item.
  intros pq Hin; vm_compute in Hin.
  destruct Hin as [<-|[<-|[]]]; intros H; vm_compute in H; discriminate H.
Defined.

Lemma join_cons2 (sep x y : str) (rest : list str) :
  Cart.join sep (x :: y :: rest) = x ++ sep ++ Cart.join sep (y :: rest).
Proof. reflexivity. Qed.

(** X16.  The description of a cart is the "has bought nothing yet" text
    exactly when the cart has no entry, whatever the usernames are: a cart
    with entries is never described as empty. *)
Theorem cart_details_empty_iff (c : Cart.cart) :
  Cart.get_details c = Cart.nothing_bought c <-> Cart.items c = [].
Proof.
  unfold Cart.get_details.
  destruct (Cart.items c) as [|pq l] eqn:E.
  - split; reflexivity.
  - split; [|discriminate].
    cbn [app List.map]; rewrite join_cons2.
    unfold Cart.nothing_bought; rewrite <- !app_assoc.
    intros H; apply app_inv_head in H; apply app_inv_head in H.
    vm_compute in H; discriminate H.
Qed.

Example demo_cart_details :
  Cart.get_details Cart.demo_cart
  = lit "Покупатель mikhail приобрел:" ++ Cart.newline
    ++ lit "- Laptop, 75000, Количество: 1" ++ Cart.newline
    ++ lit "- Mouse, 1500, Количество: 2" ++ Cart.newline
    ++ lit "- Laptop, 75000, Количество: 3" ++ Cart.newline
    ++ lit "Общая сумма: 303000 руб." ++ Cart.newline
    ++ lit "Покупки зарегистрировал пользователь root"
  /\ Cart.get_total (Cart.remove_item Cart.demo_cart (lit "Laptop")) = 3000%Z
  /\ Cart.get_details (Cart.remove_item (Cart.remove_item Cart.demo_cart (lit "Laptop"))
                                        (lit "Mouse"))
     = lit "Покупатель mikhail пока ничего не купил." ++ Cart.newline
       ++ lit "Покупки зарегистрировал пользователь root".
Proof. vm_compute; repeat split; reflexivity. Qed.

(* ================================================================== *)
(** ** Stored digests along the calls *)
(* ================================================================== *)

Section DigestFacts.
Import Draws.

Lemma skipn_nth_cons (n : nat) (d : str) :
  (n < List.length d)%nat -> skipn n d = nth n d 0%N :: skipn (S n) d.
Proof.
  revert d; induction n as [|n IH]; intros [|x d]; simpl; intros H; try lia.
  - reflexivity.
  - apply IH; lia.
Qed.

Lemma digest_layout (salt h : str) :
  List.length salt = 32%nat ->
  firstn 32 (salt ++ dollar :: h) = salt
  /\ nth 32 (salt ++ dollar :: h) 0%N = dollar
  /\ skipn 33 (salt ++ dollar :: h) = h
  /\ List.length (salt ++ dollar :: h) = (33 + List.length h)%nat.
Proof.
  intros L; repeat split.
  - rewrite firstn_app, L, Nat.sub_diag, firstn_O, app_nil_r.
    rewrite <- L; apply firstn_all.
  - rewrite app_nth2, L; [reflexivity | lia].
  - change (dollar :: h) with ([dollar] ++ h); rewrite app_assoc, skipn_app.
    replace (List.length (salt ++ [dollar])) with 33%nat
      by (rewrite length_app, L; reflexivity).
    rewrite Nat.sub_diag, skipn_all2; [reflexivity|].
    rewrite length_app, L; simpl; lia.
  - rewrite length_app, L; simpl; lia.
Qed.

Lemma well_formed_digest_parts (d : str) :
  well_formed_digest d = true ->
  d = firstn 32 d ++ dollar :: skipn 33 d
  /\ forallb is_hex_digit (firstn 32 d) = true
  /\ forallb is_hex_digit (skipn 33 d) = true.
Proof.
  unfold well_formed_digest; intros H.
  apply andb_true_iff in H as [H H4]; apply andb_true_iff in H as [H H3].
  apply andb_true_iff in H as [H1 H2].
  apply Nat.eqb_eq in H1; apply N.eqb_eq in H3.
  repeat split; auto.
  rewrite <- H3, <- skipn_nth_cons by lia.
  symmetry; apply firstn_skipn.
Qed.

Lemma hash_password_well_formed (salt password digest : str) :
  is_uuid4_hex salt = true ->
  hash_password salt password = Ok digest ->
  well_formed_digest digest = true.
Proof.
  intros Hsalt Hh.
  destruct (hash_password_parts _ _ _ Hsalt Hh) as (L & h & -> & Hhex & Lh).
  destruct (digest_layout salt h L) as (F & Nt & Sk & Ln).
  unfold well_formed_digest; rewrite F, Nt, Sk, Ln, Lh, Hhex.
  rewrite (uuid4_hex_is_hex _ Hsalt), N.eqb_refl; reflexivity.
Qed.

Lemma digests_ok_drop (name : str) (l : list user) :
  digests_ok l -> digests_ok (drop_user name l).
Proof.
  unfold digests_ok; induction l as [|y l IH]; simpl; [auto|].
  intros H; apply andb_true_iff in H as [Hy Hl].
  destruct (str_eqb (username y) name); [exact Hl|].
  simpl; now rewrite Hy, IH.
Qed.

Lemma digests_ok_step (c : call) (st : state) :
  uuid_salt c = true -> digests_ok (users st) -> digests_ok (users (step c st)).
Proof.
  intros Hc H.
  destruct c as [cl n e p a s | n p t | | | | n]; cbn [step].
  - rewrite register_eq.
    destruct (find_user n (users st)); [exact H|].
    destruct a as [|x [|y r]]; try exact H.
    destruct (hash_password s p) as [digest|] eqn:E; [|exact H].
    cbn [snd with_users users]; unfold digests_ok.
    rewrite forallb_app, H; cbn [forallb].
    unfold password_hashed; rewrite (proj1 (instance_attributes _ _ _)).
    cbn [base_password_hashed].
    now rewrite (hash_password_well_formed _ _ _ Hc E).
  - rewrite login_eq.
    destruct (find_user n (users st)) as [u|]; [|exact H].
    destruct (check_password (password_hashed u) p) as [[|]|]; exact H.
  - rewrite logout_eq; destruct (current_user st); exact H.
  - rewrite get_current_user_eq; destruct (current_user st); exact H.
  - rewrite list_users_eq; exact H.
  - rewrite delete_user_eq.
    destruct (find_user n (users st)); [|exact H].
    cbn [snd with_output with_users users]; now apply digests_ok_drop.
Qed.

Lemma digests_ok_run (cs : list call) (st : state) :
  uuid_salts cs = true -> digests_ok (users st) -> digests_ok (users (run cs st)).
Proof.
  unfold run, uuid_salts; revert st.
  induction cs as [|c cs IH]; intros st Hcs H; simpl; [exact H|].
  simpl in Hcs; apply andb_true_iff in Hcs as [Hc Hcs].
  apply IH; [exact Hcs | now apply digests_ok_step].
Qed.
End DigestFacts.

(** X17.  In the running program the handler of [check_password] is never
    needed at [login]: after any sequence of calls whose registrations drew
    UUID salts, every digest in the registry is 32 hexadecimal digits, the
    delimiter and 64 hexadecimal digits, and [split] cuts it into exactly
    these two fields. *)
Theorem registry_digests_well_formed (cs : list call) (u : user) :
  Draws.uuid_salts cs = true ->
  In u (users (run cs init)) ->
  Draws.well_formed_digest (password_hashed u) = true
  /\ split_max1 dollar (password_hashed u)
     = [firstn 32 (password_hashed u); skipn 33 (password_hashed u)].
Proof.
  intros Hcs Hin.
  pose proof (digests_ok_run cs init Hcs eq_refl) as H.
  unfold Draws.digests_ok in H; rewrite forallb_forall in H; specialize (H u Hin).
  split; [exact H|].
  destruct (well_formed_digest_parts _ H) as (E & Hs & _).
  rewrite E at 1; apply split_max1_first.
  now apply hex_digit_not_dollar.
Qed.

(** The administrator after the whole script. *)
Lemma registry_digests_well_formed_witness :
  Draws.well_formed_digest (password_hashed Demo.root_user) = true
  /\ split_max1 dollar (password_hashed Demo.root_user)
     = [firstn 32 (password_hashed Demo.root_user);
        skipn 33 (password_hashed Demo.root_user)].
Proof.
  apply (registry_digests_well_formed Demo.script Demo.root_user).
  - vm_compute; reflexivity.
  - replace (users (run Demo.script init)) with [Demo.root_user]
      by (vm_compute; reflexivity).
    left; reflexivity.
Defined.



(** A stored string without a delimiter and a candidate with a surrogate. *)
Lemma check_password_no_delimiter_witness :
  check_password (lit "0123456789abcdef") [0xD800%N] = Ok false.
Proof.
  apply check_password_no_delimiter.
  intros H; vm_compute in H; decompose [or] H; try discriminate; contradiction.
Defined.
